(** * Clique-Ledger-Core: the clique routes (server/src/routes/cliques.ts)

    A shallow embedding of the Express handlers of the clique router and of
    the Prisma calls they make, followed by the properties of the membership
    and ledger engine that the specification states about them.

    - Tables are lists of rows in storage order (order matters to
      [findFirst], duplicates matter to the "no duplicate row" properties).
    - A JavaScript [number] is an IEEE-754 binary64 value: [float].
    - Every [await] of an external call (a Prisma query, an id generator)
      may reject.  Which calls reject is decided by the environment, so
      handlers are written in a state-and-exception monad over the world. *)

From Stdlib Require Import String List Bool Arith Lia.
From Stdlib Require Import Floats.PrimFloat.
Import ListNotations.
Open Scope string_scope.
Open Scope list_scope.

(** ** Rows *)

Module User.
Record t := mk { user_id : string; user_name : string; mail : string }.
End User.

Module Clique.
Record t := mk {
  clique_id : string;
  clique_name : string;
  fund : float;
  is_fund : bool;
  is_active : bool }.

Definition set_clique_name (n : string) (c : t) : t :=
  mk (clique_id c) n (fund c) (is_fund c) (is_active c).
End Clique.

Module Member.
Record t := mk {
  member_id : string;
  user_id : string;
  clique_id : string;
  is_admin : bool;
  is_active : bool;
  joined_at : nat }.

Definition set_is_active (b : bool) (m : t) : t :=
  mk (member_id m) (user_id m) (clique_id m) (is_admin m) b (joined_at m).
End Member.

Module Ledger.
Record t := mk {
  member_id : string;
  clique_id : string;
  amount : float;
  is_due : bool }.
End Ledger.

Module Transaction.
Record t := mk {
  transaction_id : string;
  clique_id : string;
  transaction_type : string;
  amount : float;
  description : string;
  sender_id : string;
  is_verified : bool;
  done_at : nat }.
End Transaction.

Module Media.
Record t := mk {
  media_id : string;
  clique_id : string;
  file_url : string;
  media_type : string;
  sender_id : string }.
End Media.

(** Modelled from the spec: the column default of [is_active] on Clique and
    Member rows.  The handlers never pass [is_active] to [create]; the
    Prisma schema that declares the default is not among the sources.  The
    specification lists a freshly added member among the active ones. *)
Definition default_is_active : bool := true.

(** ** The database *)

Record Db := mkDb {
  users : list User.t;
  cliques : list Clique.t;
  members : list Member.t;
  ledgers : list Ledger.t;
  transactions : list Transaction.t;
  media : list Media.t }.

Definition set_cliques (l : list Clique.t) (d : Db) : Db :=
  mkDb (users d) l (members d) (ledgers d) (transactions d) (media d).
Definition set_members (l : list Member.t) (d : Db) : Db :=
  mkDb (users d) (cliques d) l (ledgers d) (transactions d) (media d).
Definition set_ledgers (l : list Ledger.t) (d : Db) : Db :=
  mkDb (users d) (cliques d) (members d) l (transactions d) (media d).
Definition set_transactions (l : list Transaction.t) (d : Db) : Db :=
  mkDb (users d) (cliques d) (members d) (ledgers d) l (media d).
Definition set_media (l : list Media.t) (d : Db) : Db :=
  mkDb (users d) (cliques d) (members d) (ledgers d) (transactions d) l.

(** ** Results of a call: a value, or a rejected promise / thrown error *)

Inductive Res (A : Type) : Type :=
| Ok (a : A)
| Thrown.
Arguments Ok {A} a.
Arguments Thrown {A}.

(** ** Prisma queries, as functions of the database

    [findUnique]/[findFirst] answer [None] for JavaScript's [null].
    [create] rejects on a unique-key violation; the unique keys modelled are
    the ones the source itself uses in a unique [where]: [clique_id]
    ([clique.findUnique]), [member_id] ([member.update]) and [user_id]
    ([user.findUnique]).  [update] and [delete] reject when no row matches
    (Prisma's "record not found"), [deleteMany] never does.  Referential
    actions belong to the schema, which is not among the sources: a
    rejection they would cause is one of the environment's rejections. *)

Definition Query (A : Type) : Type := Db -> Res A * Db.

Definition user_findUnique (userId : string) : Query (option User.t) :=
  fun d => (Ok (find (fun u => User.user_id u =? userId) (users d)), d).

Definition clique_findUnique (cliqueId : string) : Query (option Clique.t) :=
  fun d => (Ok (find (fun c => Clique.clique_id c =? cliqueId) (cliques d)), d).

Definition clique_create (row : Clique.t) : Query Clique.t :=
  fun d =>
    if existsb (fun c => Clique.clique_id c =? Clique.clique_id row) (cliques d)
    then (Thrown, d)
    else (Ok row, set_cliques (cliques d ++ [row]) d).

Definition clique_update_name (cliqueId name : string) : Query Clique.t :=
  fun d =>
    match find (fun c => Clique.clique_id c =? cliqueId) (cliques d) with
    | None => (Thrown, d)
    | Some c =>
        (Ok (Clique.set_clique_name name c),
         set_cliques
           (map (fun c => if Clique.clique_id c =? cliqueId
                          then Clique.set_clique_name name c else c)
                (cliques d)) d)
    end.

(** The value [clique.delete] resolves to is typed as nullable because the
    handler tests it; Prisma itself never resolves to [null]. *)
Definition clique_delete (cliqueId : string) : Query (option Clique.t) :=
  fun d =>
    match find (fun c => Clique.clique_id c =? cliqueId) (cliques d) with
    | None => (Thrown, d)
    | Some c =>
        (Ok (Some c),
         set_cliques
           (filter (fun c => negb (Clique.clique_id c =? cliqueId)) (cliques d)) d)
    end.

Definition transaction_deleteMany (cliqueId : string) : Query nat :=
  fun d =>
    (Ok (length (filter (fun t => Transaction.clique_id t =? cliqueId)
                        (transactions d))),
     set_transactions
       (filter (fun t => negb (Transaction.clique_id t =? cliqueId))
               (transactions d)) d).

Definition member_findFirst (userId cliqueId : string) : Query (option Member.t) :=
  fun d =>
    (Ok (find (fun m => (Member.user_id m =? userId)
                        && (Member.clique_id m =? cliqueId)) (members d)), d).

Definition member_create (row : Member.t) : Query Member.t :=
  fun d =>
    if existsb (fun m => Member.member_id m =? Member.member_id row) (members d)
    then (Thrown, d)
    else (Ok row, set_members (members d ++ [row]) d).

Definition member_update_is_active (memberId : string) (b : bool) : Query Member.t :=
  fun d =>
    match find (fun m => Member.member_id m =? memberId) (members d) with
    | None => (Thrown, d)
    | Some m =>
        (Ok (Member.set_is_active b m),
         set_members
           (map (fun m => if Member.member_id m =? memberId
                          then Member.set_is_active b m else m)
                (members d)) d)
    end.

Definition ledger_create (row : Ledger.t) : Query Ledger.t :=
  fun d => (Ok row, set_ledgers (ledgers d ++ [row]) d).

Definition media_create (row : Media.t) : Query Media.t :=
  fun d => (Ok row, set_media (media d ++ [row]) d).

Definition media_findMany (cliqueId : string) : Query (list Media.t) :=
  fun d => (Ok (filter (fun m => Media.clique_id m =? cliqueId) (media d)), d).

(** *** Queries with [include] *)

Record MemberWithUser := mkMemberWithUser {
  member : Member.t;
  user : User.t }.

Record CliqueWithMembers := mkCliqueWithMembers {
  cwm_clique : Clique.t;
  cwm_members : list MemberWithUser }.

Record CliqueWithIncludes := mkCliqueWithIncludes {
  clique : Clique.t;
  clique_members : list MemberWithUser;
  clique_transactions : list Transaction.t }.

(** [include: { user: ... }] on a member.  The relation is required (the
    handlers read [member.user.user_name] unguarded), so a member whose user
    row is missing makes the query reject. *)
Definition include_user (d : Db) (m : Member.t) : option MemberWithUser :=
  match find (fun u => User.user_id u =? Member.user_id m) (users d) with
  | Some u => Some (mkMemberWithUser m u)
  | None => None
  end.

Fixpoint include_users (d : Db) (ms : list Member.t) : option (list MemberWithUser) :=
  match ms with
  | [] => Some []
  | m :: ms' =>
      match include_user d m, include_users d ms' with
      | Some mu, Some mus => Some (mu :: mus)
      | _, _ => None
      end
  end.

(** [include: { members: { where: { is_active: true }, include: { user } } }] *)
Definition include_active_members (d : Db) (cliqueId : string)
  : option (list MemberWithUser) :=
  include_users d
    (filter (fun m => (Member.clique_id m =? cliqueId) && Member.is_active m)
            (members d)).

(** [orderBy: { done_at: 'desc' }]: a stable insertion sort.  A row is put
    in front of the rows that are not later than it, and [fold_right]
    inserts the rows from the last stored to the first, so rows with equal
    timestamps keep their storage order. *)
Fixpoint insert_desc (t : Transaction.t) (l : list Transaction.t) : list Transaction.t :=
  match l with
  | [] => [t]
  | x :: l' =>
      if (Transaction.done_at x <=? Transaction.done_at t)%nat
      then t :: x :: l'
      else x :: insert_desc t l'
  end.

Definition orderBy_done_at_desc (l : list Transaction.t) : list Transaction.t :=
  fold_right insert_desc [] l.

(** [include: { transactions: { orderBy: { done_at: 'desc' }, take: 1 } }] *)
Definition include_latest_transaction (d : Db) (cliqueId : string) : list Transaction.t :=
  firstn 1 (orderBy_done_at_desc
              (filter (fun t => Transaction.clique_id t =? cliqueId) (transactions d))).

Definition clique_with_includes (d : Db) (c : Clique.t) : option CliqueWithIncludes :=
  match include_active_members d (Clique.clique_id c) with
  | Some ms =>
      Some (mkCliqueWithIncludes c ms (include_latest_transaction d (Clique.clique_id c)))
  | None => None
  end.

Fixpoint cliques_with_includes (d : Db) (cs : list Clique.t)
  : option (list CliqueWithIncludes) :=
  match cs with
  | [] => Some []
  | c :: cs' =>
      match clique_with_includes d c, cliques_with_includes d cs' with
      | Some r, Some rs => Some (r :: rs)
      | _, _ => None
      end
  end.

(** [where: { members: { some: { user_id, is_active: true } } }] *)
Definition has_active_member (d : Db) (userId : string) (c : Clique.t) : bool :=
  existsb (fun m => (Member.clique_id m =? Clique.clique_id c)
                    && (Member.user_id m =? userId)
                    && Member.is_active m)
          (members d).

Definition clique_findMany_of_user (userId : string) : Query (list CliqueWithIncludes) :=
  fun d =>
    match cliques_with_includes d (filter (has_active_member d userId) (cliques d)) with
    | Some rs => (Ok rs, d)
    | None => (Thrown, d)
    end.

Definition clique_findUnique_with_members (cliqueId : string)
  : Query (option CliqueWithMembers) :=
  fun d =>
    match find (fun c => Clique.clique_id c =? cliqueId) (cliques d) with
    | None => (Ok None, d)
    | Some c =>
        match include_active_members d (Clique.clique_id c) with
        | Some ms => (Ok (Some (mkCliqueWithMembers c ms)), d)
        | None => (Thrown, d)
        end
    end.

(** ** The world a handler runs in *)

(** What the environment decides: whether the [k]-th awaited external call
    rejects, the identifier an id generator resolves to when it is that
    call, and the wall clock. *)
Record Env := mkEnv {
  rejects : nat -> bool;
  fresh_id : nat -> string;
  now : nat -> nat }.

(** A message published with [io.to(room).emit(event, payload)]. *)
Record Emitted := mkEmitted {
  room : string;
  event : string;
  payload : Media.t }.

Record World := mkWorld {
  db : Db;
  tick : nat;               (* number of external calls awaited so far *)
  emitted : list Emitted }.

Definition M (A : Type) : Type := World -> Res A * World.

Definition ret {A} (a : A) : M A := fun w => (Ok a, w).

Definition bind {A B} (m : M A) (k : A -> M B) : M B :=
  fun w =>
    match m w with
    | (Ok a, w') => k a w'
    | (Thrown, w') => (Thrown, w')
    end.

Declare Scope monad_scope.
Delimit Scope monad_scope with monad.
Notation "x <- m ;; k" := (bind m (fun x => k))
  (at level 61, m at next level, right associativity) : monad_scope.
Notation "m ;; k" := (bind m (fun _ => k))
  (at level 61, right associativity) : monad_scope.
Open Scope monad_scope.

(** [try { body } catch (err) { handler }]: writes made before the throw
    stay in the world. *)
Definition try_catch {A} (body : M A) (handler : A) : World -> A * World :=
  fun w =>
    match body w with
    | (Ok a, w') => (a, w')
    | (Thrown, w') => (handler, w')
    end.

(** [io.to(room).emit(event, payload)] *)
Definition io_to_emit (r e : string) (p : Media.t) : M unit :=
  fun w => (Ok tt, mkWorld (db w) (tick w) (emitted w ++ [mkEmitted r e p])).

(** ** Requests and responses *)

(** [res.locals.user], set by the identity middleware. *)
Record Caller := mkCaller {
  caller_user_id : string;
  caller_user_name : string;
  caller_user_email : string }.

(** A request body that is expected to be an array of identifiers. *)
Inductive ReqBody :=
| BodyArray (ids : list string)
| BodyOther.

(** A field of [req.file] as zod's [z.string()] sees it. *)
Inductive Field :=
| FString (s : string)
| FNotString
| FMissing.

Record UploadedFile := mkUploadedFile {
  mimetype : Field;
  location : Field }.

Module MemberView.
Record t := mk {
  user_id : string;
  member_id : string;
  member_name : string;
  email : string;
  is_admin : bool }.
End MemberView.

Module TransactionView.
Record t := mk {
  transaction_id : string;
  clique_id : string;
  transaction_type : string;
  amount : float;
  description : string;
  sender_id : string;
  is_verified : bool;
  done_at : nat }.
End TransactionView.

Module CliqueListItem.
Record t := mk {
  clique_id : string;
  clique_name : string;
  members : list MemberView.t;
  is_fund : bool;
  fund : float;
  isActive : bool;
  last_transaction : option TransactionView.t }.
End CliqueListItem.

Module CliqueView.
Record t := mk {
  clique_id : string;
  clique_name : string;
  members : list MemberView.t;
  isFund : bool;
  fund : float;
  isActive : bool }.
End CliqueView.

Module CreatedClique.
Record t := mk {
  clique_id : string;
  clique_name : string;
  members : MemberView.t;
  isFund : bool;
  fund : float;
  isActive : bool }.
End CreatedClique.

Module NewMember.
Record t := mk {
  member_id : string;
  user_id : string;
  clique_id : string;
  is_admin : bool;
  joined_at : nat;
  member_name : string;
  email : string }.
End NewMember.

Inductive Json :=
| JText (s : string)
| JError (error : string)
| JMessage (message : string)
| JFieldStatus (field_name status : string)
| JStatus (status message : string)
| JMembers (status message : string) (data : list NewMember.t)
| JCliques (records : list CliqueListItem.t)
| JClique (c : CliqueView.t)
| JCreated (c : CreatedClique.t)
| JMedia (m : Media.t)
| JMediaList (l : list Media.t).

Record Response := mkResponse {
  status : nat;
  body : Json }.

(** ** The handlers *)

Definition member_view (mu : MemberWithUser) : MemberView.t :=
  MemberView.mk
    (Member.user_id (member mu))
    (Member.member_id (member mu))
    (User.user_name (user mu))
    (User.mail (user mu))
    (Member.is_admin (member mu)).

(** [members.filter(member => member.is_active).map(member => ({...}))] *)
Definition active_member_views (ms : list MemberWithUser) : list MemberView.t :=
  map member_view (filter (fun mu => Member.is_active (member mu)) ms).

Definition last_transaction_view (c : CliqueWithIncludes) : option TransactionView.t :=
  match clique_transactions c with
  | [] => None
  | t :: _ =>
      Some (TransactionView.mk
              (Transaction.transaction_id t)
              (Clique.clique_id (clique c))
              (Transaction.transaction_type t)
              (Transaction.amount t)
              (Transaction.description t)
              (Transaction.sender_id t)
              (Transaction.is_verified t)
              (Transaction.done_at t))
  end.

Definition transformedRecord (c : CliqueWithIncludes) : CliqueListItem.t :=
  CliqueListItem.mk
    (Clique.clique_id (clique c))
    (Clique.clique_name (clique c))
    (active_member_views (clique_members c))
    (Clique.is_fund (clique c))
    (Clique.fund (clique c))
    (Clique.is_active (clique c))
    (last_transaction_view c).

Definition transformedClique (c : CliqueWithMembers) : CliqueView.t :=
  CliqueView.mk
    (Clique.clique_id (cwm_clique c))
    (Clique.clique_name (cwm_clique c))
    (active_member_views (cwm_members c))
    (Clique.is_fund (cwm_clique c))
    (Clique.fund (cwm_clique c))
    (Clique.is_active (cwm_clique c)).

(** [funds !== 0] on numbers: the negation of IEEE equality. *)
Definition fund_flag (funds : float) : bool := negb (PrimFloat.eqb funds 0%float).

(** [if (name)] on an optional string: absent and empty are falsy. *)
Definition truthy (name : option string) : bool :=
  match name with
  | Some s => negb (s =? "")
  | None => false
  end.

(** [fileResponseSchema.parse(req.file)]: both fields must be strings. *)
Definition fileResponseSchema_parse (f : UploadedFile) : option (string * string) :=
  match mimetype f, location f with
  | FString mt, FString loc => Some (mt, loc)
  | _, _ => None
  end.

Section Handlers.
Variable env : Env.

(** [await prisma.<model>.<query>(...)] *)
Definition await {A} (q : Query A) : M A :=
  fun w =>
    if rejects env (tick w)
    then (Thrown, mkWorld (db w) (S (tick w)) (emitted w))
    else let (r, d) := q (db w) in (r, mkWorld d (S (tick w)) (emitted w)).

(** [await generateCliqueId()], [await generateMemberId()],
    [await generateMediaId()]: external generators. *)
Definition generateId : M string :=
  fun w =>
    if rejects env (tick w)
    then (Thrown, mkWorld (db w) (S (tick w)) (emitted w))
    else (Ok (fresh_id env (tick w)), mkWorld (db w) (S (tick w)) (emitted w)).

Definition generateCliqueId : M string := generateId.
Definition generateMemberId : M string := generateId.
Definition generateMediaId : M string := generateId.

(** [new Date()] *)
Definition new_Date : M nat := fun w => (Ok (now env (tick w)), w).

(** [router.get('/')]: all cliques of the caller. *)
Definition getCliques (userId : string) : World -> Response * World :=
  try_catch
    (allRecords <- await (clique_findMany_of_user userId) ;;
     if (length allRecords =? 0)%nat
     then ret (mkResponse 200 (JText "No data found"))
     else ret (mkResponse 200 (JCliques (map transformedRecord allRecords))))
    (mkResponse 500 (JError "An error occurred while fetching records")).

(** [router.post('/')]: create a clique; [funds] is
    [parseFloat(req.body.funds)]. *)
Definition createClique (caller : Caller) (name : string) (funds : float)
  : World -> Response * World :=
  try_catch
    (newCliqueId <- generateCliqueId ;;
     newClique <- await (clique_create
                           (Clique.mk newCliqueId name funds (fund_flag funds)
                                      default_is_active)) ;;
     newMemberId <- generateMemberId ;;
     joined <- new_Date ;;
     newMember <- await (member_create
                           (Member.mk newMemberId (caller_user_id caller)
                                      (Clique.clique_id newClique) true
                                      default_is_active joined)) ;;
     await (ledger_create
              (Ledger.mk (Member.member_id newMember)
                         (Member.clique_id newMember) 0%float false)) ;;
     ret (mkResponse 201
            (JCreated
               (CreatedClique.mk
                  (Clique.clique_id newClique)
                  (Clique.clique_name newClique)
                  (MemberView.mk (Member.user_id newMember)
                                 (Member.member_id newMember)
                                 (caller_user_name caller)
                                 (caller_user_email caller)
                                 true)
                  (Clique.is_fund newClique)
                  (Clique.fund newClique)
                  (Clique.is_active newClique)))))
    (mkResponse 500 (JError "An error occurred while creating the clique")).

(** [router.get('/:cliqueId')]: one clique with its active members. *)
Definition getClique (cliqueId : string) : World -> Response * World :=
  try_catch
    (clique <- await (clique_findUnique_with_members cliqueId) ;;
     match clique with
     | None => ret (mkResponse 404 (JMessage "Clique not found"))
     | Some clique => ret (mkResponse 200 (JClique (transformedClique clique)))
     end)
    (mkResponse 500 (JError "An error occurred while fetching the clique")).

(** [router.patch('/:cliqueId')]: rename. *)
Definition renameClique (cliqueId : string) (name : option string)
  : World -> Response * World :=
  try_catch
    (existingClique <- await (clique_findUnique cliqueId) ;;
     match existingClique with
     | None => ret (mkResponse 404 (JFieldStatus "name" "NOT FOUND"))
     | Some _ =>
         (if truthy name
          then (await (clique_update_name cliqueId
                         (match name with Some s => s | None => "" end)) ;;
                ret tt)
          else ret tt) ;;
         ret (mkResponse 200 (JFieldStatus "name" "SUCCESS"))
     end)
    (mkResponse 500 (JError "An error occurred while updating the clique")).

(** [router.delete('/:cliqueId')]: delete a clique and its transactions. *)
Definition deleteClique (cliqueId : string) : World -> Response * World :=
  try_catch
    (deletedClique <- await (clique_delete cliqueId) ;;
     match deletedClique with
     | None => ret (mkResponse 404 (JFieldStatus "cliqueId" "NOT FOUND"))
     | Some _ =>
         await (transaction_deleteMany cliqueId) ;;
         ret (mkResponse 204 (JMessage "Clique deleted successfully"))
     end)
    (mkResponse 500 (JError "An error occurred while deleting the clique")).

(** One turn of [for (const userId of userIds)] in the add-members handler:
    [inl newMembers] goes on to the next id, [inr response] is a [return]
    from inside the loop. *)
Definition addMembers_step (cliqueId userId : string) (newMembers : list NewMember.t)
  : M (list NewMember.t + Response) :=
  user <- await (user_findUnique userId) ;;
  match user with
  | Some user =>
      newMemberId <- generateMemberId ;;
      checkMember <- await (member_findFirst userId cliqueId) ;;
      match checkMember with
      | Some checkMember =>
          if Member.is_active checkMember
          then
            ret (inr (mkResponse 409
                        (JStatus "FAILURE"
                           ("User with email id: " ++ User.mail user
                              ++ " already exists in the clique"))))
          else
            await (member_update_is_active (Member.member_id checkMember) true) ;;
            ret (inr (mkResponse 201
                        (JMembers "SUCCESS" "Members added successfully" newMembers)))
      | None =>
          joined <- new_Date ;;
          newMember <- await (member_create
                                (Member.mk newMemberId userId cliqueId false
                                           default_is_active joined)) ;;
          await (ledger_create
                   (Ledger.mk (Member.member_id newMember)
                              (Member.clique_id newMember) 0%float false)) ;;
          ret (inl (newMembers ++
                      [NewMember.mk (Member.member_id newMember)
                                    (Member.user_id newMember)
                                    (Member.clique_id newMember)
                                    (Member.is_admin newMember)
                                    (Member.joined_at newMember)
                                    (User.user_name user)
                                    (User.mail user)]))
      end
  | None =>
      ret (inr (mkResponse 404
                  (JStatus "FAILURE"
                     ("User with user_id " ++ userId ++ " not found"))))
  end.

Fixpoint addMembers_loop (cliqueId : string) (userIds : list string)
    (newMembers : list NewMember.t) : M (list NewMember.t + Response) :=
  match userIds with
  | [] => ret (inl newMembers)
  | userId :: rest =>
      r <- addMembers_step cliqueId userId newMembers ;;
      match r with
      | inl newMembers' => addMembers_loop cliqueId rest newMembers'
      | inr response => ret (inr response)
      end
  end.

(** [router.post('/:cliqueId/members/')]: add members. *)
Definition addMembers (cliqueId : string) (body : ReqBody) : World -> Response * World :=
  try_catch
    (match body with
     | BodyOther =>
         ret (mkResponse 400
                (JStatus "FAILURE" "Invalid input format. Expected an array of user IDs."))
     | BodyArray userIds =>
         r <- addMembers_loop cliqueId userIds [] ;;
         match r with
         | inr response => ret response
         | inl newMembers =>
             if (length newMembers =? 0)%nat
             then ret (mkResponse 404
                         (JStatus "FAILURE" "No valid users found to add to the clique."))
             else ret (mkResponse 201
                         (JMembers "SUCCESS" "Members added successfully" newMembers))
         end
     end)
    (mkResponse 500 (JStatus "FAILURE" "An error occurred while adding members")).

Fixpoint removeMembers_loop (userIds : list string) : M unit :=
  match userIds with
  | [] => ret tt
  | userId :: rest =>
      await (member_update_is_active userId false) ;;
      removeMembers_loop rest
  end.

(** [router.delete('/:cliqueId/members/')]: remove members. *)
Definition removeMembers (body : ReqBody) : World -> Response * World :=
  try_catch
    (match body with
     | BodyOther =>
         ret (mkResponse 400
                (JStatus "FAILURE" "Invalid input format. Expected an array of user IDs."))
     | BodyArray userIds =>
         removeMembers_loop userIds ;;
         ret (mkResponse 204 (JStatus "SUCCESS" "Members removed successfully"))
     end)
    (mkResponse 500 (JStatus "FAILURE" "An error occurred while removing members")).

(** [router.get('/:cliqueId/media')]: the query is awaited outside any
    [try], so a rejection leaves the request unanswered ([None]).  The route
    parameter is always a string, so [paramSchema.parse] succeeds. *)
Definition getMedia (cliqueId : string) : World -> option Response * World :=
  fun w =>
    match await (media_findMany cliqueId) w with
    | (Ok l, w') => (Some (mkResponse 200 (JMediaList l)), w')
    | (Thrown, w') => (None, w')
    end.

(** [router.post('/:cliqueId/media/')]: record an uploaded file and announce
    it; [senderId] is [res.locals.member.member_id]. *)
Definition uploadMedia (cliqueId : string) (file : option UploadedFile)
    (senderId : string) : World -> Response * World :=
  match file with
  | None => fun w => (mkResponse 400 (JMessage "No file was provided!!"), w)
  | Some file =>
      match fileResponseSchema_parse file with
      | None =>
          fun w =>
            (mkResponse 500
               (JMessage "File was not uploaded ! Please retry after a moment !"), w)
      | Some (parsed_mimetype, parsed_location) =>
          try_catch
            (mediaId <- generateMediaId ;;
             media <- await (media_create
                               (Media.mk mediaId cliqueId parsed_location
                                         parsed_mimetype senderId)) ;;
             io_to_emit cliqueId "media-created" media ;;
             ret (mkResponse 201 (JMedia media)))
            (mkResponse 500 (JText "Database error"))
      end
  end.

End Handlers.

(** The whole router: one request, one (possibly missing) response. *)
Inductive Request :=
| GetCliques (userId : string)
| CreateClique (caller : Caller) (name : string) (funds : float)
| GetClique (cliqueId : string)
| RenameClique (cliqueId : string) (name : option string)
| DeleteClique (cliqueId : string)
| AddMembers (cliqueId : string) (body : ReqBody)
| RemoveMembers (body : ReqBody)
| GetMedia (cliqueId : string)
| UploadMedia (cliqueId : string) (file : option UploadedFile) (senderId : string).

Definition answered (r : Response * World) : option Response * World :=
  (Some (fst r), snd r).

Definition handle (env : Env) (req : Request) (w : World) : option Response * World :=
  match req with
  | GetCliques userId => answered (getCliques env userId w)
  | CreateClique caller name funds => answered (createClique env caller name funds w)
  | GetClique cliqueId => answered (getClique env cliqueId w)
  | RenameClique cliqueId name => answered (renameClique env cliqueId name w)
  | DeleteClique cliqueId => answered (deleteClique env cliqueId w)
  | AddMembers cliqueId body => answered (addMembers env cliqueId body w)
  | RemoveMembers body => answered (removeMembers env body w)
  | GetMedia cliqueId => getMedia env cliqueId w
  | UploadMedia cliqueId file senderId =>
      answered (uploadMedia env cliqueId file senderId w)
  end.

(** ** Predicates used by the properties *)

Definition is_string_field (f : Field) : bool :=
  match f with
  | FString _ => true
  | _ => false
  end.

Definition clique_exists (d : Db) (cliqueId : string) : bool :=
  existsb (fun c => Clique.clique_id c =? cliqueId) (cliques d).

Definition member_exists (d : Db) (memberId : string) : bool :=
  existsb (fun m => Member.member_id m =? memberId) (members d).

(** The environment lets the next [n] awaited calls through. *)
Definition accepts (env : Env) (from n : nat) : Prop :=
  forall k, k < n -> rejects env (from + k) = false.

(** A computation that leaves a projection of the database as it found it,
    whether it returns or throws. *)
Definition keeps {X A} (proj : Db -> X) (m : M A) : Prop :=
  forall w, proj (db (snd (m w))) = proj (db w).

(** The Member rows of a (user, clique) pair, and the Ledger rows of a
    member. *)
Definition members_of_pair (userId cliqueId : string) (d : Db) : list Member.t :=
  filter (fun m => (Member.user_id m =? userId) && (Member.clique_id m =? cliqueId))
         (members d).

Definition ledgers_of_member (memberId : string) (d : Db) : list Ledger.t :=
  filter (fun l => Ledger.member_id l =? memberId) (ledgers d).

(** What a remove-members call does to one Member row. *)
Definition soft_delete (ids : list string) (m : Member.t) : Member.t :=
  if existsb (fun id => Member.member_id m =? id) ids
  then Member.set_is_active false m
  else m.

(** The members a response shows, each with the clique it is shown in. *)
Definition response_members (r : Response) : list (string * MemberView.t) :=
  match body r with
  | JCliques records =>
      flat_map (fun item => map (pair (CliqueListItem.clique_id item))
                                (CliqueListItem.members item)) records
  | JClique c => map (pair (CliqueView.clique_id c)) (CliqueView.members c)
  | _ => []
  end.

(** How many Clique, Member and Ledger rows a call added. *)
Definition records_added (before after : Db) : nat * nat * nat :=
  (length (cliques after) - length (cliques before),
   length (members after) - length (members before),
   length (ledgers after) - length (ledgers before)).

(** "All three records exist afterwards, or none do." *)
Definition create_all_or_nothing (before after : Db) : Prop :=
  records_added before after = (1, 1, 1) \/ records_added before after = (0, 0, 0).

(** The three rows a create call writes, in the order it writes them.  The
    call starts at tick [t]: the clique id is generated at [t], the member id
    at [2 + t], and the clock is read before the member is written at
    [3 + t]. *)
Definition founding_clique (env : Env) (t : nat) (name : string) (funds : float)
  : Clique.t :=
  Clique.mk (fresh_id env t) name funds (fund_flag funds) default_is_active.

Definition founding_member (env : Env) (t : nat) (caller : Caller) : Member.t :=
  Member.mk (fresh_id env (2 + t)) (caller_user_id caller) (fresh_id env t)
            true default_is_active (now env (3 + t)).

Definition founding_ledger (env : Env) (t : nat) : Ledger.t :=
  Ledger.mk (fresh_id env (2 + t)) (fresh_id env t) 0%float false.

(** Whether a create call that starts in [w] gets its Clique row written:
    the id generator and [clique.create] are not rejected by the environment
    and the generated id is not taken. *)
Definition clique_written (env : Env) (w : World) : bool :=
  negb (rejects env (tick w)) && negb (rejects env (S (tick w)))
  && negb (clique_exists (db w) (fresh_id env (tick w))).

(** The identifier and fund flag of every Clique row. *)
Definition fund_flags (d : Db) : list (string * bool) :=
  map (fun c => (Clique.clique_id c, Clique.is_fund c)) (cliques d).

(** The Ledger row the add-members handler writes for a new member. *)
Definition opening_ledger (m : Member.t) : Ledger.t :=
  Ledger.mk (Member.member_id m) (Member.clique_id m) 0%float false.

(** The row the add-members handler creates for [userId] when its turn of
    the loop starts at tick [t], and the entry it reports for it. *)
Definition added_member (env : Env) (t : nat) (cliqueId userId : string) : Member.t :=
  Member.mk (fresh_id env (1 + t)) userId cliqueId false default_is_active
            (now env (3 + t)).

Definition reported_member (m : Member.t) (u : User.t) : NewMember.t :=
  NewMember.mk (Member.member_id m) (Member.user_id m) (Member.clique_id m)
               (Member.is_admin m) (Member.joined_at m)
               (User.user_name u) (User.mail u).

(** What reactivation does to one Member row. *)
Definition reactivate (memberId : string) (m : Member.t) : Member.t :=
  if Member.member_id m =? memberId then Member.set_is_active true m else m.

(** User [userId] has exactly the Member row [m] in clique [cliqueId], and
    the Ledger rows of [m] are [ls]. *)
Definition pair_is (userId cliqueId : string) (m : Member.t) (ls : list Ledger.t)
    (d : Db) : Prop :=
  members_of_pair userId cliqueId d = [m] /\
  ledgers_of_member (Member.member_id m) d = ls.

(** ** A small world for concrete runs *)

Definition quiet : Env :=
  mkEnv (fun _ => false)
        (fun k => match k with 0 => "c1" | 2 => "m1" | _ => "m9" end)
        (fun k => 1000 + k).

(** The same generators, with the fourth awaited call rejected. *)
Definition fourth_call_fails : Env :=
  mkEnv (fun k => (k =? 3)%nat) (fresh_id quiet) (now quiet).

(** ... and with the fifth awaited call rejected. *)
Definition fifth_call_fails : Env :=
  mkEnv (fun k => (k =? 4)%nat) (fresh_id quiet) (now quiet).

Definition alice : Caller := mkCaller "u1" "Alice" "alice@example.org".

Definition some_users : list User.t :=
  [User.mk "u1" "Alice" "alice@example.org";
   User.mk "u2" "Bob" "bob@example.org";
   User.mk "u3" "Carol" "carol@example.org"].

Definition empty_world : World := mkWorld (mkDb some_users [] [] [] [] []) 0 [].

(** Clique "c1" of Alice; Bob was added and then removed, his ledger entry
    carries a balance. *)
Definition trip_db : Db :=
  mkDb some_users
       [Clique.mk "c1" "Trip" 0%float false true]
       [Member.mk "m1" "u1" "c1" true true 1003;
        Member.mk "m2" "u2" "c1" false false 1010]
       [Ledger.mk "m1" "c1" 0%float false;
        Ledger.mk "m2" "c1" 12.5%float true]
       [Transaction.mk "t1" "c1" "spend" 12.5%float "fuel" "m2" true 1020;
        Transaction.mk "t2" "c9" "spend" 3%float "tea" "m7" false 1021]
       [].

Definition trip_world : World := mkWorld trip_db 0 [].

(** ** Notions used by the further properties *)

(** Clique "c1" after more spending: three transactions, stored out of
    order. *)
Definition busy_db : Db :=
  set_transactions
    (transactions trip_db ++
     [Transaction.mk "t3" "c1" "spend" 40%float "hotel" "m1" false 1050;
      Transaction.mk "t4" "c1" "refund" 5%float "deposit" "m1" true 1030])
    trip_db.

Definition busy_world : World := mkWorld busy_db 0 [].

(** Every run of a computation takes the world to one related by [R]. *)
Definition steps {A} (R : World -> World -> Prop) (m : M A) : Prop :=
  forall w, R w (snd (m w)).

(** The world after an awaited call that left the database [d]. *)
Definition wrote (w : World) (d : Db) : World :=
  mkWorld d (S (tick w)) (emitted w).

(** What identifies a Member row apart from its [is_active] flag. *)
Definition member_key (m : Member.t) : string * string * string * bool * nat :=
  (Member.member_id m, Member.user_id m, Member.clique_id m,
   Member.is_admin m, Member.joined_at m).

(** [d'] has the users of [d], its Ledger rows followed by zero-balance
    ones, its Member rows (up to [is_active]) followed by new ones, and its
    Media rows followed by new ones. *)
Definition only_grows (d d' : Db) : Prop :=
  users d' = users d /\
  (exists ls, ledgers d' = ledgers d ++ ls /\
              Forall (fun l => Ledger.amount l = 0%float /\ Ledger.is_due l = false) ls) /\
  (exists ks, map member_key (members d') = map member_key (members d) ++ ks) /\
  (exists ms, media d' = media d ++ ms).

(** No two Clique rows share a [clique_id], no two Member rows a
    [member_id]. *)
Definition unique_ids (d : Db) : Prop :=
  NoDup (map Clique.clique_id (cliques d)) /\
  NoDup (map Member.member_id (members d)).

(** A (user, clique) pair has at most one Member row. *)
Definition one_row_per_pair (d : Db) : Prop :=
  forall userId cliqueId, length (members_of_pair userId cliqueId d) <= 1.

(** The rows an add-members call creates for [userIds] when each of them is
    new to the clique: one turn of the loop takes five awaited calls. *)
Fixpoint added_members (env : Env) (t : nat) (cliqueId : string)
    (userIds : list string) : list Member.t :=
  match userIds with
  | [] => []
  | userId :: rest =>
      added_member env t cliqueId userId :: added_members env (5 + t) cliqueId rest
  end.

(** The entry the add-members handler reports for a new row. *)
Definition reports (d : Db) (n : NewMember.t) (m : Member.t) : Prop :=
  exists usr,
    find (fun u => User.user_id u =? Member.user_id m) (users d) = Some usr /\
    n = reported_member m usr.

(** An environment whose member ids differ from turn to turn of the
    add-members loop of a call that starts at tick 0. *)
Definition numbered : Env :=
  mkEnv (fun _ => false)
        (fun k => match k with 1 => "m11" | 6 => "m12" | _ => "m13" end)
        (fun k => 2000 + k).

(** The router serving requests one after the other. *)
Definition serve (env : Env) (reqs : list Request) (w : World) : World :=
  fold_left (fun w req => snd (handle env req w)) reqs w.

(** Clique "c1" with Alice alone in it. *)
Definition solo_db : Db :=
  mkDb some_users
       [Clique.mk "c1" "Trip" 0%float false true]
       [Member.mk "m1" "u1" "c1" true true 1003]
       [Ledger.mk "m1" "c1" 0%float false]
       [] [].

Definition solo_world : World := mkWorld solo_db 0 [].

(** * Properties *)

(** ** Stepping through a handler *)

Ltac unfold_handler :=
  unfold try_catch, bind, ret, await, generateCliqueId, generateMemberId,
    generateMediaId, generateId, new_Date, io_to_emit; simpl.

Ltac split_calls :=
  repeat match goal with
    | |- context [if rejects ?e ?t then _ else _] =>
        destruct (rejects e t) eqn:?; simpl
    | |- context [match find ?f ?l with _ => _ end] =>
        destruct (find f l) eqn:?; simpl
    | |- context [if existsb ?f ?l then _ else _] =>
        destruct (existsb f l) eqn:?; simpl
    end.

Lemma accepts_here env t n : accepts env t (S n) -> rejects env t = false.
Proof. intros H. rewrite <- (Nat.add_0_r t). apply H. lia. Qed.

Lemma accepts_next env t n : accepts env t (S n) -> accepts env (S t) n.
Proof.
  intros H k Hk. replace (S t + k) with (t + S k) by lia. apply H. lia.
Qed.

Lemma find_none_existsb {A} (f : A -> bool) (l : list A) :
  find f l = None <-> existsb f l = false.
Proof.
  induction l as [|a l IH]; simpl; [tauto|].
  destruct (f a); simpl; [split; discriminate | exact IH].
Qed.

(** ** Media ingest *)

(** C7.  An upload result whose content type or storage location is missing
    (or is not a string) makes the upload handler answer 500 and leaves the
    world as it was: no Media row is created and nothing is emitted to the
    clique's channel. *)
Theorem uploadMedia_malformed_upload_result :
  forall env cliqueId file senderId w,
    is_string_field (mimetype file) = false \/
    is_string_field (location file) = false ->
    let r := uploadMedia env cliqueId (Some file) senderId w in
    status (fst r) = 500 /\
    media (db (snd r)) = media (db w) /\
    emitted (snd r) = emitted w /\
    snd r = w.
Proof.
  intros env cliqueId [mt loc] senderId w H; simpl in H.
  unfold uploadMedia, fileResponseSchema_parse; simpl.
  destruct mt, loc; simpl in *; try (destruct H; discriminate); auto.
Qed.

Lemma uploadMedia_malformed_upload_result_witness :
  let file := mkUploadedFile (FString "image/png") FMissing in
  let w := mkWorld (mkDb [] [] [] [] [] []) 0 [] in
  let r := uploadMedia (mkEnv (fun _ => false) (fun _ => "md1") (fun _ => 0))
             "c1" (Some file) "m1" w in
  status (fst r) = 500 /\ media (db (snd r)) = media (db w) /\
  emitted (snd r) = emitted w /\ snd r = w.
Proof.
  apply (uploadMedia_malformed_upload_result
           (mkEnv (fun _ => false) (fun _ => "md1") (fun _ => 0)) "c1"
           (mkUploadedFile (FString "image/png") FMissing) "m1"
           (mkWorld (mkDb [] [] [] [] [] []) 0 [])).
  right; reflexivity.
Defined.

(** A well-formed upload, for contrast: one Media row, one event. *)
Example uploadMedia_well_formed :
  let w := mkWorld (mkDb [] [] [] [] [] []) 0 [] in
  let r := uploadMedia (mkEnv (fun _ => false) (fun _ => "md1") (fun _ => 0))
             "c1" (Some (mkUploadedFile (FString "image/png") (FString "s3://b/k")))
             "m1" w in
  status (fst r) = 201 /\
  media (db (snd r)) = [Media.mk "md1" "c1" "s3://b/k" "image/png" "m1"] /\
  emitted (snd r) =
    [mkEmitted "c1" "media-created" (Media.mk "md1" "c1" "s3://b/k" "image/png" "m1")].
Proof. repeat split. Qed.

(** ** Rename *)

Lemma world_eta w : mkWorld (db w) (tick w) (emitted w) = w.
Proof. destruct w; reflexivity. Qed.

(** C10.  Renaming an existing clique with an absent or empty name changes
    no row of the database, and the handler answers 200 as soon as the
    lookup is answered. *)
Theorem renameClique_without_name :
  forall env cliqueId name w,
    name = None \/ name = Some "" ->
    clique_exists (db w) cliqueId = true ->
    let r := renameClique env cliqueId name w in
    db (snd r) = db w /\
    (rejects env (tick w) = false ->
     fst r = mkResponse 200 (JFieldStatus "name" "SUCCESS")).
Proof.
  intros env cliqueId name w Hname Hex. unfold clique_exists in Hex.
  assert (Ht : truthy name = false) by (destruct Hname; subst; reflexivity).
  unfold renameClique, clique_findUnique. unfold_handler.
  destruct (rejects env (tick w)) eqn:Hr; simpl.
  - split; [reflexivity | discriminate].
  - destruct (find _ (cliques (db w))) eqn:Hf; simpl.
    + rewrite Ht; simpl. split; reflexivity.
    + apply find_none_existsb in Hf. congruence.
Qed.

Lemma renameClique_without_name_witness :
  let env := mkEnv (fun _ => false) (fun _ => "x") (fun _ => 0) in
  let w := mkWorld (mkDb [] [Clique.mk "c1" "Trip" 0%float false true] [] [] [] []) 0 [] in
  let r := renameClique env "c1" (Some "") w in
  db (snd r) = db w /\
  (rejects env (tick w) = false ->
   fst r = mkResponse 200 (JFieldStatus "name" "SUCCESS")).
Proof.
  apply (renameClique_without_name
           (mkEnv (fun _ => false) (fun _ => "x") (fun _ => 0)) "c1" (Some "")
           (mkWorld (mkDb [] [Clique.mk "c1" "Trip" 0%float false true] [] [] [] []) 0 [])).
  - right; reflexivity.
  - reflexivity.
Defined.

(** A non-empty name, for contrast, is written. *)
Example renameClique_with_name :
  let env := mkEnv (fun _ => false) (fun _ => "x") (fun _ => 0) in
  let w := mkWorld (mkDb [] [Clique.mk "c1" "Trip" 0%float false true] [] [] [] []) 0 [] in
  map Clique.clique_name (cliques (db (snd (renameClique env "c1" (Some "Ski") w))))
  = ["Ski"].
Proof. reflexivity. Qed.

(** ** Delete *)

Lemma deleteClique_absent env cliqueId w :
  clique_exists (db w) cliqueId = false ->
  deleteClique env cliqueId w =
    (mkResponse 500 (JError "An error occurred while deleting the clique"),
     mkWorld (db w) (S (tick w)) (emitted w)).
Proof.
  unfold clique_exists; intros H. apply find_none_existsb in H.
  unfold deleteClique, clique_delete. unfold_handler.
  rewrite H. destruct (rejects env (tick w)); reflexivity.
Qed.

(** The 404 branch of the delete handler is dead. *)
Lemma deleteClique_never_404 env cliqueId w :
  status (fst (deleteClique env cliqueId w)) <> 404.
Proof.
  unfold deleteClique, clique_delete, transaction_deleteMany. unfold_handler.
  split_calls; discriminate.
Qed.

Lemma deleteClique_present env cliqueId w :
  clique_exists (db w) cliqueId = true ->
  accepts env (tick w) 2 ->
  let r := deleteClique env cliqueId w in
  status (fst r) = 204 /\
  cliques (db (snd r)) =
    filter (fun c => negb (Clique.clique_id c =? cliqueId)) (cliques (db w)) /\
  transactions (db (snd r)) =
    filter (fun t => negb (Transaction.clique_id t =? cliqueId)) (transactions (db w)).
Proof.
  unfold clique_exists; intros Hex Hacc.
  pose proof (accepts_here _ _ _ Hacc) as H0.
  pose proof (accepts_here _ _ _ (accepts_next _ _ _ Hacc)) as H1.
  unfold deleteClique, clique_delete, transaction_deleteMany. unfold_handler.
  rewrite H0.
  destruct (find _ (cliques (db w))) eqn:Hf; simpl.
  - rewrite H1; simpl. repeat split.
  - apply find_none_existsb in Hf. congruence.
Qed.

(** C3.  Deleting a clique that does not exist: [clique.delete] rejects,
    the handler's [catch] answers 500, and the 404 it has for this case is
    never sent.  (An existing clique is removed together with its
    transactions: [deleteClique_present].) *)
Theorem deleteClique_missing_clique_answers_500 :
  let r := deleteClique quiet "ghost" trip_world in
  clique_exists trip_db "ghost" = false /\
  fst r = mkResponse 500 (JError "An error occurred while deleting the clique") /\
  status (fst r) <> 404 /\
  db (snd r) = trip_db.
Proof.
  cbv zeta. split; [reflexivity|].
  rewrite (deleteClique_absent quiet "ghost" trip_world eq_refl).
  repeat split. simpl. discriminate.
Qed.

Example deleteClique_existing_clique :
  let r := deleteClique quiet "c1" trip_world in
  status (fst r) = 204 /\
  cliques (db (snd r)) = [] /\
  map Transaction.transaction_id (transactions (db (snd r))) = ["t2"].
Proof. repeat split. Qed.

(** ** Frames: what a computation leaves alone *)

Section Frames.
Context {X : Type} (proj : Db -> X).

Lemma keeps_ret {A} (a : A) : keeps proj (ret a).
Proof. intros w. reflexivity. Qed.

Lemma keeps_bind {A B} (m : M A) (k : A -> M B) :
  keeps proj m -> (forall a, keeps proj (k a)) -> keeps proj (bind m k).
Proof.
  intros Hm Hk w. unfold bind. specialize (Hm w).
  destruct (m w) as [[a|] w1]; simpl in *.
  - rewrite (Hk a w1). exact Hm.
  - exact Hm.
Qed.

Lemma keeps_await {A} env (q : Query A) :
  (forall d, proj (snd (q d)) = proj d) -> keeps proj (await env q).
Proof.
  intros Hq w. unfold await. destruct (rejects env (tick w)); simpl; [reflexivity|].
  specialize (Hq (db w)). destruct (q (db w)); simpl in *. exact Hq.
Qed.

Lemma keeps_generateId env : keeps proj (generateId env).
Proof. intros w. unfold generateId. destruct (rejects env (tick w)); reflexivity. Qed.

Lemma keeps_new_Date env : keeps proj (new_Date env).
Proof. intros w. reflexivity. Qed.

Lemma keeps_io_to_emit r e p : keeps proj (io_to_emit r e p).
Proof. intros w. reflexivity. Qed.

Lemma keeps_try_catch {A} (body : M A) (handler : A) w :
  keeps proj body -> proj (db (snd (try_catch body handler w))) = proj (db w).
Proof.
  intros Hb. unfold try_catch. specialize (Hb w).
  destruct (body w) as [[a|] w1]; exact Hb.
Qed.

End Frames.

(** ** Remove members *)

Lemma set_members_same d : set_members (members d) d = d.
Proof. destruct d; reflexivity. Qed.

Lemma set_is_active_same b m : Member.is_active m = b -> Member.set_is_active b m = m.
Proof. destruct m; simpl; intros <-; reflexivity. Qed.

Lemma existsb_member_id_map (f : Member.t -> Member.t) memberId l :
  (forall m, Member.member_id (f m) = Member.member_id m) ->
  existsb (fun m => Member.member_id m =? memberId) (map f l) =
  existsb (fun m => Member.member_id m =? memberId) l.
Proof.
  intros Hf. induction l as [|m l IH]; simpl; [reflexivity|].
  rewrite Hf, IH. reflexivity.
Qed.

Lemma soft_delete_cons id ids m :
  soft_delete ids (if Member.member_id m =? id
                   then Member.set_is_active false m else m)
  = soft_delete (id :: ids) m.
Proof.
  unfold soft_delete; simpl.
  destruct (Member.member_id m =? id); simpl.
  - destruct (existsb _ ids); destruct m; reflexivity.
  - reflexivity.
Qed.

(** The loop of the remove handler, when every id names a row and the
    storage answers: one pass of [soft_delete] over the Member table. *)
Lemma removeMembers_loop_run env ids : forall w,
  (forall id, In id ids -> member_exists (db w) id = true) ->
  accepts env (tick w) (length ids) ->
  removeMembers_loop env ids w =
    (Ok tt,
     mkWorld (set_members (map (soft_delete ids) (members (db w))) (db w))
             (tick w + length ids) (emitted w)).
Proof.
  induction ids as [|id ids IH]; intros w Hex Hacc; simpl.
  - unfold ret. f_equal.
    replace (map (soft_delete []) (members (db w))) with (members (db w)).
    + rewrite set_members_same, Nat.add_0_r. apply eq_sym, world_eta.
    + clear. induction (members (db w)) as [|m l IHl]; simpl; [reflexivity|].
      rewrite <- IHl. reflexivity.
  - unfold bind at 1. unfold await, member_update_is_active.
    rewrite (accepts_here _ _ _ Hacc).
    assert (Hid : member_exists (db w) id = true) by (apply Hex; left; reflexivity).
    unfold member_exists in Hid.
    destruct (find _ (members (db w))) eqn:Hf;
      [| apply find_none_existsb in Hf; congruence].
    rewrite IH; simpl.
    + f_equal. f_equal; [| lia].
      unfold set_members; simpl. f_equal.
      rewrite map_map. apply map_ext. intros m. apply soft_delete_cons.
    + intros id' Hin. unfold member_exists; simpl.
      rewrite existsb_member_id_map.
      * apply Hex. right; exact Hin.
      * intros m. destruct (Member.member_id m =? id); reflexivity.
    + apply accepts_next. exact Hacc.
Qed.

(** Whatever the ids and whatever the storage does, the remove handler
    writes to the Member table only. *)
Lemma removeMembers_loop_keeps {X} (proj : Db -> X) env ids :
  (forall l d, proj (set_members l d) = proj d) ->
  keeps proj (removeMembers_loop env ids).
Proof.
  intros Hproj. induction ids as [|id ids IH]; simpl.
  - apply keeps_ret.
  - apply keeps_bind; [| intros _; exact IH].
    apply keeps_await. intros d. unfold member_update_is_active.
    destruct (find _ (members d)); simpl; [apply Hproj | reflexivity].
Qed.

Lemma removeMembers_keeps_ledgers env body w :
  ledgers (db (snd (removeMembers env body w))) = ledgers (db w).
Proof.
  unfold removeMembers. apply keeps_try_catch.
  destruct body; [| apply keeps_ret].
  apply keeps_bind; [| intros _; apply keeps_ret].
  apply removeMembers_loop_keeps. reflexivity.
Qed.

(** C8.  Removing members whose records exist, with the storage answering:
    the handler answers 204, every listed Member row ends with
    [is_active = false] and is otherwise unchanged, rows not listed are
    untouched, the Ledger table is exactly what it was, and when the listed
    members were inactive already the database does not change at all. *)
Theorem removeMembers_soft_deletes :
  forall env ids w,
    (forall id, In id ids -> member_exists (db w) id = true) ->
    accepts env (tick w) (length ids) ->
    let r := removeMembers env (BodyArray ids) w in
    status (fst r) = 204 /\
    members (db (snd r)) = map (soft_delete ids) (members (db w)) /\
    (forall m, In m (members (db (snd r))) -> In (Member.member_id m) ids ->
               Member.is_active m = false) /\
    ledgers (db (snd r)) = ledgers (db w) /\
    ((forall m, In m (members (db w)) -> In (Member.member_id m) ids ->
                Member.is_active m = false) ->
     db (snd r) = db w).
Proof.
  intros env ids w Hex Hacc.
  assert (Hrun : removeMembers env (BodyArray ids) w =
    (mkResponse 204 (JStatus "SUCCESS" "Members removed successfully"),
     mkWorld (set_members (map (soft_delete ids) (members (db w))) (db w))
             (tick w + length ids) (emitted w))).
  { unfold removeMembers, try_catch, bind.
    rewrite (removeMembers_loop_run env ids w Hex Hacc). reflexivity. }
  cbv zeta. rewrite Hrun; simpl.
  split; [reflexivity|]. split; [reflexivity|]. split; [|split; [reflexivity|]].
  - intros m Hin Hid. apply in_map_iff in Hin. destruct Hin as [m0 [<- _]].
    unfold soft_delete in *.
    destruct (existsb _ ids) eqn:He.
    + reflexivity.
    + exfalso. simpl in Hid.
      assert (existsb (fun id => Member.member_id m0 =? id) ids = true).
      { apply existsb_exists. exists (Member.member_id m0). split; [exact Hid|].
        apply String.eqb_refl. }
      congruence.
  - intros Hinactive.
    replace (map (soft_delete ids) (members (db w))) with (members (db w)).
    + apply set_members_same.
    + rewrite <- (map_id (members (db w))) at 1. apply map_ext_in.
      intros m Hin. unfold soft_delete.
      destruct (existsb _ ids) eqn:He; [| reflexivity].
      apply existsb_exists in He. destruct He as [id [Hid Heq]].
      apply String.eqb_eq in Heq. subst id.
      symmetry. apply set_is_active_same. apply Hinactive; assumption.
Qed.

Lemma removeMembers_soft_deletes_witness :
  let r := removeMembers quiet (BodyArray ["m2"; "m1"]) trip_world in
  status (fst r) = 204 /\
  members (db (snd r)) = map (soft_delete ["m2"; "m1"]) (members trip_db) /\
  (forall m, In m (members (db (snd r))) -> In (Member.member_id m) ["m2"; "m1"] ->
             Member.is_active m = false) /\
  ledgers (db (snd r)) = ledgers trip_db /\
  ((forall m, In m (members trip_db) -> In (Member.member_id m) ["m2"; "m1"] ->
              Member.is_active m = false) ->
   db (snd r) = trip_db).
Proof.
  apply (removeMembers_soft_deletes quiet ["m2"; "m1"] trip_world).
  - intros id [<- | [<- | []]]; reflexivity.
  - intros k Hk. reflexivity.
Defined.

(** Removing a member id that has no row is not a no-op: the update rejects
    and the handler answers 500, keeping what it had already written. *)
Example removeMembers_unknown_id :
  let r := removeMembers quiet (BodyArray ["m1"; "nobody"; "m2"]) trip_world in
  status (fst r) = 500 /\
  map (fun m => (Member.member_id m, Member.is_active m)) (members (db (snd r)))
  = [("m1", false); ("m2", false)] /\
  ledgers (db (snd r)) = ledgers trip_db.
Proof. repeat split. Qed.

(** ** Listing *)

Lemma include_users_sound d l : forall mus,
  include_users d l = Some mus ->
  forall mu, In mu mus -> In (member mu) l.
Proof.
  induction l as [|m l IH]; simpl; intros mus H mu Hin.
  - inversion H; subst. destruct Hin.
  - unfold include_user in H.
    destruct (find _ (users d)) as [u|]; [| discriminate].
    destruct (include_users d l) as [mus'|]; [| discriminate].
    inversion H; subst. destruct Hin as [<- | Hin].
    + left; reflexivity.
    + right. apply (IH mus' eq_refl). exact Hin.
Qed.

Lemma active_member_views_sound d cliqueId ms mv :
  include_active_members d cliqueId = Some ms ->
  In mv (active_member_views ms) ->
  exists m,
    In m (members d) /\
    Member.member_id m = MemberView.member_id mv /\
    Member.user_id m = MemberView.user_id mv /\
    Member.is_admin m = MemberView.is_admin mv /\
    Member.clique_id m = cliqueId /\
    Member.is_active m = true.
Proof.
  unfold include_active_members, active_member_views. intros Hinc Hin.
  apply in_map_iff in Hin. destruct Hin as [mu [<- Hmu]].
  apply filter_In in Hmu. destruct Hmu as [Hmu Hact].
  pose proof (include_users_sound _ _ _ Hinc mu Hmu) as Hm.
  apply filter_In in Hm. destruct Hm as [Hm Hc].
  apply andb_true_iff in Hc. destruct Hc as [Hc _].
  apply String.eqb_eq in Hc.
  exists (member mu). simpl. auto 7.
Qed.

Lemma cliques_with_includes_sound d cs : forall rs,
  cliques_with_includes d cs = Some rs ->
  forall r, In r rs ->
  include_active_members d (Clique.clique_id (clique r)) = Some (clique_members r).
Proof.
  induction cs as [|c cs IH]; simpl; intros rs H r Hin.
  - inversion H; subst. destruct Hin.
  - unfold clique_with_includes in H.
    destruct (include_active_members d (Clique.clique_id c)) as [ms|] eqn:Hms;
      [| discriminate].
    destruct (cliques_with_includes d cs) as [rs'|]; [| discriminate].
    inversion H; subst. destruct Hin as [<- | Hin].
    + exact Hms.
    + apply (IH rs' eq_refl). exact Hin.
Qed.

Lemma getCliques_members_active env userId w cliqueId mv :
  In (cliqueId, mv) (response_members (fst (getCliques env userId w))) ->
  exists m,
    In m (members (db w)) /\
    Member.member_id m = MemberView.member_id mv /\
    Member.user_id m = MemberView.user_id mv /\
    Member.is_admin m = MemberView.is_admin mv /\
    Member.clique_id m = cliqueId /\
    Member.is_active m = true.
Proof.
  unfold getCliques, clique_findMany_of_user. unfold_handler.
  destruct (rejects env (tick w)); simpl; [intros []|].
  destruct (cliques_with_includes _ _) as [rs|] eqn:Hrs; simpl; [| intros []].
  destruct (length rs =? 0)%nat; simpl; [intros []|].
  unfold response_members; simpl. intros Hin.
  apply in_flat_map in Hin. destruct Hin as [item [Hitem Hin]].
  apply in_map_iff in Hitem. destruct Hitem as [r [<- Hr]].
  apply in_map_iff in Hin. destruct Hin as [mv' [Heq Hmv]].
  inversion Heq; subst. simpl in Hmv.
  eapply active_member_views_sound; [| exact Hmv].
  eapply cliques_with_includes_sound; eassumption.
Qed.

Lemma getClique_members_active env cliqueId0 w cliqueId mv :
  In (cliqueId, mv) (response_members (fst (getClique env cliqueId0 w))) ->
  exists m,
    In m (members (db w)) /\
    Member.member_id m = MemberView.member_id mv /\
    Member.user_id m = MemberView.user_id mv /\
    Member.is_admin m = MemberView.is_admin mv /\
    Member.clique_id m = cliqueId /\
    Member.is_active m = true.
Proof.
  unfold getClique, clique_findUnique_with_members. unfold_handler.
  destruct (rejects env (tick w)); simpl; [intros []|].
  destruct (find _ (cliques (db w))) as [c|]; simpl; [| intros []].
  destruct (include_active_members _ _) as [ms|] eqn:Hms; simpl; [| intros []].
  unfold response_members; simpl. intros Hin.
  apply in_map_iff in Hin. destruct Hin as [mv' [Heq Hmv]].
  inversion Heq; subst.
  eapply active_member_views_sound; eassumption.
Qed.

(** C6.  Every member shown by the list-my-cliques handler or by the
    get-clique-by-id handler is the view of a Member row of the shown clique
    whose [is_active] is true. *)
Theorem listings_show_active_members_only :
  forall env w r,
    (exists userId, r = fst (getCliques env userId w)) \/
    (exists cliqueId, r = fst (getClique env cliqueId w)) ->
    forall cliqueId mv,
      In (cliqueId, mv) (response_members r) ->
      exists m,
        In m (members (db w)) /\
        Member.member_id m = MemberView.member_id mv /\
        Member.user_id m = MemberView.user_id mv /\
        Member.is_admin m = MemberView.is_admin mv /\
        Member.clique_id m = cliqueId /\
        Member.is_active m = true.
Proof.
  intros env w r [[userId ->] | [cliqueId0 ->]] cliqueId mv.
  - apply getCliques_members_active.
  - apply getClique_members_active.
Qed.

Lemma listings_show_active_members_only_witness :
  exists m,
    In m (members trip_db) /\
    Member.member_id m = "m1" /\
    Member.user_id m = "u1" /\
    Member.is_admin m = true /\
    Member.clique_id m = "c1" /\
    Member.is_active m = true.
Proof.
  apply (listings_show_active_members_only quiet trip_world
           (fst (getCliques quiet "u1" trip_world))
           (or_introl (ex_intro _ "u1" eq_refl))
           "c1" (MemberView.mk "u1" "m1" "Alice" "alice@example.org" true)).
  simpl. left. reflexivity.
Defined.

(** Bob's inactive membership of the example clique is in the table but in
    neither listing. *)
Example listings_hide_inactive_member :
  map Member.member_id (members trip_db) = ["m1"; "m2"] /\
  map (fun p => MemberView.member_id (snd p))
      (response_members (fst (getCliques quiet "u1" trip_world))) = ["m1"] /\
  map (fun p => MemberView.member_id (snd p))
      (response_members (fst (getClique quiet "c1" trip_world))) = ["m1"] /\
  fst (getCliques quiet "u2" trip_world) = mkResponse 200 (JText "No data found").
Proof. repeat split. Qed.

(** ** Create *)

(** C1, as stated, fails.  Alice creates "Trip" and the storage rejects the
    fourth awaited call, the write of the founding Member: the handler
    answers 500 and the Clique row it has already written stays, without a
    Member and without a Ledger entry. *)
Lemma createClique_leaves_partial_group :
  let r := createClique fourth_call_fails alice "Trip" 0%float empty_world in
  status (fst r) = 500 /\
  records_added (db empty_world) (db (snd r)) = (1, 0, 0) /\
  ~ create_all_or_nothing (db empty_world) (db (snd r)).
Proof.
  cbv zeta. split; [reflexivity|]. split; [reflexivity|].
  unfold create_all_or_nothing.
  change (records_added (db empty_world)
            (db (snd (createClique fourth_call_fails alice "Trip" 0%float empty_world))))
    with (1, 0, 0).
  intros [H | H]; discriminate H.
Qed.

(** The other partial group: a founding Member without its Ledger entry. *)
Example createClique_member_without_ledger :
  let r := createClique fifth_call_fails alice "Trip" 0%float empty_world in
  status (fst r) = 500 /\
  records_added (db empty_world) (db (snd r)) = (1, 1, 0).
Proof. split; reflexivity. Qed.

(** The four ways a create call can end. *)
Lemma createClique_outcomes env caller name funds w :
  let d1 := set_cliques (cliques (db w) ++ [founding_clique env (tick w) name funds])
              (db w) in
  let d2 := set_members (members (db w) ++ [founding_member env (tick w) caller]) d1 in
  let d3 := set_ledgers (ledgers (db w) ++ [founding_ledger env (tick w)]) d2 in
  let r := createClique env caller name funds w in
  (status (fst r) = 500 /\ db (snd r) = db w) \/
  (status (fst r) = 500 /\ db (snd r) = d1) \/
  (status (fst r) = 500 /\ db (snd r) = d2) \/
  (status (fst r) = 201 /\ db (snd r) = d3).
Proof.
  cbv zeta.
  unfold createClique, clique_create, member_create, ledger_create,
    founding_clique, founding_member, founding_ledger.
  unfold_handler. split_calls;
    first [ left; split; reflexivity
          | right; left; split; reflexivity
          | right; right; left; split; reflexivity
          | right; right; right; split; reflexivity ].
Qed.

(** C1, amended.  A create call writes the Clique row, the founding Member
    row ([is_admin = true]) and the zero-balance Ledger row one after the
    other, with no transaction around them.  The database afterwards is the
    database before plus the rows written before the first failure; the
    answer is 201 exactly when all three were written and 500 otherwise. *)
Theorem createClique_writes_in_order :
  forall env caller name funds w,
    let c := founding_clique env (tick w) name funds in
    let m := founding_member env (tick w) caller in
    let l := founding_ledger env (tick w) in
    let d1 := set_cliques (cliques (db w) ++ [c]) (db w) in
    let d2 := set_members (members (db w) ++ [m]) d1 in
    let d3 := set_ledgers (ledgers (db w) ++ [l]) d2 in
    let r := createClique env caller name funds w in
    Member.is_admin m = true /\
    Member.clique_id m = Clique.clique_id c /\
    l = opening_ledger m /\
    Ledger.amount l = 0%float /\
    ((status (fst r) = 500 /\ db (snd r) = db w) \/
     (status (fst r) = 500 /\ db (snd r) = d1) \/
     (status (fst r) = 500 /\ db (snd r) = d2) \/
     (status (fst r) = 201 /\ db (snd r) = d3)).
Proof.
  intros env caller name funds w. cbv zeta.
  do 4 (split; [reflexivity|]).
  apply createClique_outcomes.
Qed.

(** When the generators hand out unused identifiers and no call is rejected,
    all three rows are written and the answer is 201. *)
Lemma createClique_succeeds env caller name funds w :
  accepts env (tick w) 5 ->
  clique_exists (db w) (fresh_id env (tick w)) = false ->
  member_exists (db w) (fresh_id env (2 + tick w)) = false ->
  let r := createClique env caller name funds w in
  status (fst r) = 201 /\
  db (snd r) =
    set_ledgers (ledgers (db w) ++ [founding_ledger env (tick w)])
      (set_members (members (db w) ++ [founding_member env (tick w) caller])
         (set_cliques (cliques (db w) ++ [founding_clique env (tick w) name funds])
            (db w))) /\
  records_added (db w) (db (snd r)) = (1, 1, 1).
Proof.
  intros Hacc Hc Hm. unfold clique_exists in Hc. unfold member_exists in Hm.
  pose proof (Hacc 0 ltac:(lia)) as H0. pose proof (Hacc 1 ltac:(lia)) as H1.
  pose proof (Hacc 2 ltac:(lia)) as H2. pose proof (Hacc 3 ltac:(lia)) as H3.
  pose proof (Hacc 4 ltac:(lia)) as H4.
  rewrite Nat.add_0_r in H0.
  replace (tick w + 1) with (S (tick w)) in H1 by lia.
  replace (tick w + 2) with (S (S (tick w))) in H2 by lia.
  replace (tick w + 3) with (S (S (S (tick w)))) in H3 by lia.
  replace (tick w + 4) with (S (S (S (S (tick w))))) in H4 by lia.
  simpl in Hm.
  unfold createClique, clique_create, member_create, ledger_create,
    founding_clique, founding_member, founding_ledger, records_added.
  unfold_handler.
  rewrite H0; simpl. rewrite Hc; simpl. rewrite H1; simpl. rewrite H2; simpl.
  rewrite H3; simpl. rewrite Hm; simpl. rewrite H4; simpl.
  split; [reflexivity|]. split; [reflexivity|].
  rewrite !length_app; simpl. f_equal; [f_equal|]; lia.
Qed.

Example createClique_trip :
  let r := createClique quiet alice "Trip" 0%float empty_world in
  status (fst r) = 201 /\
  cliques (db (snd r)) = [Clique.mk "c1" "Trip" 0%float false true] /\
  members (db (snd r)) = [Member.mk "m1" "u1" "c1" true true 1003] /\
  ledgers (db (snd r)) = [Ledger.mk "m1" "c1" 0%float false].
Proof. repeat split. Qed.

(** ** The fund flag *)

Ltac unfold_queries :=
  unfold user_findUnique, clique_findUnique, clique_create, clique_update_name,
    clique_delete, transaction_deleteMany, member_findFirst, member_create,
    member_update_is_active, ledger_create, media_create, media_findMany,
    clique_findMany_of_user, clique_findUnique_with_members.

Ltac keeps_step :=
  first
    [ apply keeps_ret
    | apply keeps_generateId
    | apply keeps_new_Date
    | apply keeps_io_to_emit
    | apply keeps_bind; [| intros ?]
    | apply keeps_await; intros ?; unfold_queries; simpl;
      repeat match goal with
        | |- context [match ?x with _ => _ end] => destruct x; simpl
        end;
      reflexivity
    | match goal with
      | |- keeps _ (match ?x with _ => _ end) => destruct x
      | |- keeps _ (if ?x then _ else _) => destruct x
      end ].

Ltac keeps_all := repeat keeps_step.

Lemma addMembers_step_keeps_cliques env cliqueId userId acc :
  keeps cliques (addMembers_step env cliqueId userId acc).
Proof. unfold addMembers_step. keeps_all. Qed.

Lemma addMembers_loop_keeps_cliques env cliqueId userIds : forall acc,
  keeps cliques (addMembers_loop env cliqueId userIds acc).
Proof.
  induction userIds as [|u rest IH]; intros acc; simpl.
  - apply keeps_ret.
  - apply keeps_bind; [apply addMembers_step_keeps_cliques|].
    intros [acc' | resp]; [apply IH | apply keeps_ret].
Qed.

Lemma addMembers_keeps_cliques env cliqueId body w :
  cliques (db (snd (addMembers env cliqueId body w))) = cliques (db w).
Proof.
  unfold addMembers. apply keeps_try_catch.
  destruct body as [userIds|]; [| apply keeps_ret].
  apply keeps_bind; [apply addMembers_loop_keeps_cliques|].
  intros [acc | resp]; keeps_all.
Qed.

Lemma removeMembers_keeps_cliques env body w :
  cliques (db (snd (removeMembers env body w))) = cliques (db w).
Proof.
  unfold removeMembers. apply keeps_try_catch.
  destruct body; [| apply keeps_ret].
  apply keeps_bind; [| intros _; apply keeps_ret].
  apply removeMembers_loop_keeps. reflexivity.
Qed.

Lemma getCliques_keeps_db env userId w : db (snd (getCliques env userId w)) = db w.
Proof.
  unfold getCliques.
  apply (keeps_try_catch (fun d => d)). keeps_all.
Qed.

Lemma getClique_keeps_db env cliqueId w : db (snd (getClique env cliqueId w)) = db w.
Proof.
  unfold getClique.
  apply (keeps_try_catch (fun d => d)). keeps_all.
Qed.

Lemma getMedia_keeps_db env cliqueId w : db (snd (getMedia env cliqueId w)) = db w.
Proof.
  unfold getMedia, await, media_findMany.
  destruct (rejects env (tick w)); reflexivity.
Qed.

Lemma uploadMedia_keeps_cliques env cliqueId file senderId w :
  cliques (db (snd (uploadMedia env cliqueId file senderId w))) = cliques (db w).
Proof.
  unfold uploadMedia. destruct file as [f|]; [| reflexivity].
  destruct (fileResponseSchema_parse f) as [[mt loc]|]; [| reflexivity].
  apply keeps_try_catch. keeps_all.
Qed.

Lemma renameClique_keeps_fund_flags env cliqueId name w :
  fund_flags (db (snd (renameClique env cliqueId name w))) = fund_flags (db w).
Proof.
  unfold renameClique. apply keeps_try_catch.
  apply keeps_bind; [keeps_all|]. intros [c|]; [| apply keeps_ret].
  apply keeps_bind; [| intros _; apply keeps_ret].
  destruct (truthy name); [| apply keeps_ret].
  apply keeps_bind; [| intros _; apply keeps_ret].
  apply keeps_await. intros d. unfold clique_update_name.
  destruct (find _ (cliques d)); simpl; [| reflexivity].
  unfold fund_flags; simpl. rewrite map_map. apply map_ext.
  intros c0. destruct (Clique.clique_id c0 =? cliqueId); reflexivity.
Qed.

Lemma deleteClique_fund_flags env cliqueId w :
  let d' := db (snd (deleteClique env cliqueId w)) in
  fund_flags d' = fund_flags (db w) \/
  fund_flags d' = filter (fun p => negb (fst p =? cliqueId)) (fund_flags (db w)).
Proof.
  assert (Hf : forall l,
    map (fun c => (Clique.clique_id c, Clique.is_fund c))
        (filter (fun c => negb (Clique.clique_id c =? cliqueId)) l)
    = filter (fun p => negb (fst p =? cliqueId))
        (map (fun c => (Clique.clique_id c, Clique.is_fund c)) l)).
  { induction l as [|c l IH]; simpl; [reflexivity|].
    destruct (Clique.clique_id c =? cliqueId); simpl; rewrite IH; reflexivity. }
  unfold deleteClique, clique_delete, transaction_deleteMany, fund_flags.
  unfold_handler. split_calls; auto.
Qed.

Lemma createClique_fund_flags env caller name funds w :
  fund_flags (db (snd (createClique env caller name funds w))) =
  fund_flags (db w) ++
  (if clique_written env w
   then [(fresh_id env (tick w), negb (PrimFloat.eqb funds 0%float))]
   else []).
Proof.
  unfold createClique, clique_create, member_create, ledger_create,
    clique_written, clique_exists, fund_flags, fund_flag.
  unfold_handler.
  destruct (rejects env (tick w)); simpl; [rewrite app_nil_r; reflexivity|].
  destruct (rejects env (S (tick w))); simpl; [rewrite app_nil_r; reflexivity|].
  destruct (existsb _ (cliques (db w))); simpl; [rewrite app_nil_r; reflexivity|].
  split_calls; rewrite map_app; reflexivity.
Qed.

Lemma createClique_201_stored_flag env caller name funds w :
  status (fst (createClique env caller name funds w)) = 201 ->
  clique_written env w = true /\
  exists c,
    body (fst (createClique env caller name funds w)) = JCreated c /\
    CreatedClique.isFund c = negb (PrimFloat.eqb funds 0%float).
Proof.
  unfold createClique, clique_create, member_create, ledger_create,
    clique_written, clique_exists, fund_flag.
  unfold_handler.
  destruct (rejects env (tick w)); simpl; [discriminate|].
  destruct (rejects env (S (tick w))); simpl; [discriminate|].
  destruct (existsb _ (cliques (db w))); simpl; [discriminate|].
  split_calls; intros H; try discriminate H.
  split; [reflexivity|]. eexists. split; reflexivity.
Qed.

Lemma filter_out_absent {A} (f : A -> bool) (l : list A) :
  find f l = None -> filter (fun a => negb (f a)) l = l.
Proof.
  induction l as [|a l IH]; simpl; [reflexivity|].
  destruct (f a); simpl; [discriminate|]. intros H. rewrite (IH H). reflexivity.
Qed.

Lemma deleteClique_fund_flags_exact env cliqueId w :
  fund_flags (db (snd (deleteClique env cliqueId w))) =
  if rejects env (tick w) then fund_flags (db w)
  else filter (fun p => negb (fst p =? cliqueId)) (fund_flags (db w)).
Proof.
  assert (Hf : forall l,
    map (fun c => (Clique.clique_id c, Clique.is_fund c))
        (filter (fun c => negb (Clique.clique_id c =? cliqueId)) l)
    = filter (fun p => negb (fst p =? cliqueId))
        (map (fun c => (Clique.clique_id c, Clique.is_fund c)) l)).
  { induction l as [|c l IH]; simpl; [reflexivity|].
    destruct (Clique.clique_id c =? cliqueId); simpl; rewrite IH; reflexivity. }
  unfold deleteClique, clique_delete, transaction_deleteMany, fund_flags.
  unfold_handler.
  destruct (rejects env (tick w)); simpl; [reflexivity|].
  destruct (find _ (cliques (db w))) eqn:Hfind; simpl.
  - destruct (rejects env (S (tick w))); simpl; apply Hf.
  - rewrite <- Hf, (filter_out_absent _ _ Hfind). reflexivity.
Qed.

(** C9.  [is_fund] is written once, by the create handler, as
    [funds !== 0]: it is true exactly when the founding amount does not
    compare equal to zero (a NaN amount does not).  A create call appends
    the new clique's id with that flag as soon as its Clique row is written
    - which it is exactly when the id generator and [clique.create] are not
    rejected and the id is unused, and always when the call answers 201, the
    answer then carrying the same flag - and otherwise leaves the flags as
    they were.  No handler of the router changes the flag of a clique
    afterwards: delete removes the rows of its clique id (unless its first
    call is rejected), and every other handler leaves the identifier and
    flag of every Clique row as they were. *)
Theorem is_fund_fixed_at_creation :
  forall env req w,
    let r := handle env req w in
    let d' := db (snd r) in
    match req with
    | CreateClique caller name funds =>
        fund_flags d' =
          fund_flags (db w) ++
          (if clique_written env w
           then [(fresh_id env (tick w), negb (PrimFloat.eqb funds 0%float))]
           else []) /\
        (forall resp, fst r = Some resp -> status resp = 201 ->
           clique_written env w = true /\
           exists c, body resp = JCreated c /\
                     CreatedClique.isFund c = negb (PrimFloat.eqb funds 0%float))
    | DeleteClique cliqueId =>
        fund_flags d' =
          if rejects env (tick w) then fund_flags (db w)
          else filter (fun p => negb (fst p =? cliqueId)) (fund_flags (db w))
    | _ => fund_flags d' = fund_flags (db w)
    end.
Proof.
  intros env req w. destruct req; cbv zeta; simpl.
  - rewrite getCliques_keeps_db. reflexivity.
  - split; [apply createClique_fund_flags|].
    intros resp Hresp H201. inversion Hresp; subst resp.
    apply createClique_201_stored_flag. exact H201.
  - rewrite getClique_keeps_db. reflexivity.
  - apply renameClique_keeps_fund_flags.
  - apply deleteClique_fund_flags_exact.
  - unfold fund_flags. rewrite addMembers_keeps_cliques. reflexivity.
  - unfold fund_flags. rewrite removeMembers_keeps_cliques. reflexivity.
  - rewrite getMedia_keeps_db. reflexivity.
  - unfold fund_flags. rewrite uploadMedia_keeps_cliques. reflexivity.
Qed.

(** A create call that answers 201 has stored the flag; so has one that
    fails after its Clique row was written. *)
Example createClique_stores_the_flag :
  let r := createClique quiet alice "Ski" 250%float empty_world in
  let r' := createClique fourth_call_fails alice "Ski" 250%float empty_world in
  status (fst r) = 201 /\ fund_flags (db (snd r)) = [("c1", true)] /\
  status (fst r') = 500 /\ fund_flags (db (snd r')) = [("c1", true)].
Proof. vm_compute. repeat split. Qed.

Example is_fund_of_amounts :
  map (fun funds =>
         map Clique.is_fund
             (cliques (db (snd (createClique quiet alice "Trip" funds empty_world)))))
      [0%float; (-0)%float; 250%float; (-3.5)%float; nan; infinity]
  = [[false]; [false]; [true]; [true]; [true]; [true]].
Proof. vm_compute. reflexivity. Qed.

(** ** Add members: one turn of the loop *)

Lemma filter_singleton_find {A} (f : A -> bool) (l : list A) (a : A) :
  filter f l = [a] -> find f l = Some a.
Proof.
  induction l as [|x l IH]; simpl; [discriminate|].
  destruct (f x); [intros H; inversion H; reflexivity | exact IH].
Qed.

Lemma find_none_filter {A} (f : A -> bool) (l : list A) :
  find f l = None -> filter f l = [].
Proof.
  induction l as [|x l IH]; simpl; [reflexivity|].
  destruct (f x); [discriminate | exact IH].
Qed.

(** The user does not resolve: 404, nothing written. *)
Lemma addMembers_step_unknown_user env cliqueId userId acc w :
  find (fun u => User.user_id u =? userId) (users (db w)) = None ->
  rejects env (tick w) = false ->
  addMembers_step env cliqueId userId acc w =
    (Ok (inr (mkResponse 404
                (JStatus "FAILURE" ("User with user_id " ++ userId ++ " not found")))),
     mkWorld (db w) (1 + tick w) (emitted w)).
Proof.
  intros Hu H0. unfold addMembers_step, user_findUnique. unfold_handler.
  rewrite H0; simpl. rewrite Hu. reflexivity.
Qed.

(** The user already has an active Member row: 409, nothing written. *)
Lemma addMembers_step_conflict env cliqueId userId acc w usr m :
  find (fun u => User.user_id u =? userId) (users (db w)) = Some usr ->
  find (fun m => (Member.user_id m =? userId) && (Member.clique_id m =? cliqueId))
       (members (db w)) = Some m ->
  Member.is_active m = true ->
  accepts env (tick w) 3 ->
  addMembers_step env cliqueId userId acc w =
    (Ok (inr (mkResponse 409
                (JStatus "FAILURE"
                   ("User with email id: " ++ User.mail usr
                      ++ " already exists in the clique")))),
     mkWorld (db w) (3 + tick w) (emitted w)).
Proof.
  intros Hu Hm Hact Hacc.
  pose proof (accepts_here _ _ _ Hacc) as H0.
  pose proof (accepts_here _ _ _ (accepts_next _ _ _ Hacc)) as H1.
  pose proof (accepts_here _ _ _ (accepts_next _ _ _ (accepts_next _ _ _ Hacc))) as H2.
  unfold addMembers_step, user_findUnique, member_findFirst. unfold_handler.
  rewrite H0; simpl. rewrite Hu; simpl. rewrite H1; simpl. rewrite H2; simpl.
  rewrite Hm; simpl. rewrite Hact. reflexivity.
Qed.

(** The user has an inactive Member row: the row is switched back on, no
    Ledger row is written, and the handler answers at once with the members
    gathered so far. *)
Lemma addMembers_step_reactivates env cliqueId userId acc w usr m :
  find (fun u => User.user_id u =? userId) (users (db w)) = Some usr ->
  find (fun m => (Member.user_id m =? userId) && (Member.clique_id m =? cliqueId))
       (members (db w)) = Some m ->
  Member.is_active m = false ->
  accepts env (tick w) 4 ->
  addMembers_step env cliqueId userId acc w =
    (Ok (inr (mkResponse 201
                (JMembers "SUCCESS" "Members added successfully" acc))),
     mkWorld (set_members (map (reactivate (Member.member_id m)) (members (db w)))
                          (db w))
             (4 + tick w) (emitted w)).
Proof.
  intros Hu Hm Hact Hacc.
  assert (Hex : existsb (fun m0 => Member.member_id m0 =? Member.member_id m)
                        (members (db w)) = true).
  { apply existsb_exists. exists m. split; [| apply String.eqb_refl].
    apply find_some in Hm. exact (proj1 Hm). }
  pose proof (Hacc 0 ltac:(lia)) as H0. pose proof (Hacc 1 ltac:(lia)) as H1.
  pose proof (Hacc 2 ltac:(lia)) as H2. pose proof (Hacc 3 ltac:(lia)) as H3.
  rewrite Nat.add_0_r in H0.
  replace (tick w + 1) with (S (tick w)) in H1 by lia.
  replace (tick w + 2) with (S (S (tick w))) in H2 by lia.
  replace (tick w + 3) with (S (S (S (tick w)))) in H3 by lia.
  unfold addMembers_step, user_findUnique, member_findFirst,
    member_update_is_active. unfold_handler.
  rewrite H0; simpl. rewrite Hu; simpl. rewrite H1; simpl. rewrite H2; simpl.
  rewrite Hm; simpl. rewrite Hact; simpl. rewrite H3; simpl.
  destruct (find (fun m0 => Member.member_id m0 =? Member.member_id m)
                 (members (db w))) eqn:Hf; simpl.
  - reflexivity.
  - apply find_none_existsb in Hf. congruence.
Qed.

(** A turn that goes on to the next id has created one Member row and one
    Ledger row for a user that had no row in the clique. *)
Lemma addMembers_step_continues env cliqueId userId acc w acc' w' :
  addMembers_step env cliqueId userId acc w = (Ok (inl acc'), w') ->
  exists usr,
    let m := added_member env (tick w) cliqueId userId in
    find (fun u => User.user_id u =? userId) (users (db w)) = Some usr /\
    find (fun m => (Member.user_id m =? userId) && (Member.clique_id m =? cliqueId))
         (members (db w)) = None /\
    member_exists (db w) (Member.member_id m) = false /\
    db w' = set_ledgers (ledgers (db w) ++ [opening_ledger m])
              (set_members (members (db w) ++ [m]) (db w)) /\
    acc' = acc ++ [reported_member m usr] /\
    tick w' = 5 + tick w /\
    emitted w' = emitted w.
Proof.
  unfold addMembers_step, user_findUnique, member_findFirst, member_create,
    ledger_create, member_update_is_active, member_exists, added_member.
  unfold_handler.
  destruct (rejects env (tick w)); simpl; [discriminate|].
  destruct (find _ (users (db w))) as [usr|] eqn:Hu; simpl; [| discriminate].
  destruct (rejects env (S (tick w))); simpl; [discriminate|].
  destruct (rejects env (S (S (tick w)))); simpl; [discriminate|].
  destruct (find _ (members (db w))) as [cm|] eqn:Hm; simpl.
  - destruct (Member.is_active cm); simpl; [discriminate|].
    destruct (rejects env (S (S (S (tick w))))); simpl; [discriminate|].
    match goal with |- context [match find ?f ?l with _ => _ end] =>
      destruct (find f l) end; simpl; discriminate.
  - destruct (rejects env (S (S (S (tick w))))); simpl; [discriminate|].
    destruct (existsb _ (members (db w))) eqn:Hex; simpl; [discriminate|].
    destruct (rejects env (S (S (S (S (tick w)))))); simpl; [discriminate|].
    intros H. inversion H; subst; clear H. exists usr. simpl.
    repeat split; assumption.
Qed.

Lemma addMembers_loop_app env cliqueId pre rest : forall acc w,
  addMembers_loop env cliqueId (pre ++ rest) acc w =
  match addMembers_loop env cliqueId pre acc w with
  | (Ok (inl acc'), w1) => addMembers_loop env cliqueId rest acc' w1
  | other => other
  end.
Proof.
  induction pre as [|u pre IH]; intros acc w; simpl; [reflexivity|].
  unfold bind.
  destruct (addMembers_step env cliqueId u acc w) as [[[acc1 | resp]|] w1]; simpl.
  - apply IH.
  - reflexivity.
  - reflexivity.
Qed.

(** Ids that were all gone through have each been given a new Member row and
    its opening Ledger row, appended in the order of the ids. *)
Lemma addMembers_loop_continues env cliqueId pre : forall acc w acc' w1,
  addMembers_loop env cliqueId pre acc w = (Ok (inl acc'), w1) ->
  exists news,
    members (db w1) = members (db w) ++ news /\
    ledgers (db w1) = ledgers (db w) ++ map opening_ledger news /\
    map Member.user_id news = pre /\
    Forall (fun m => Member.clique_id m = cliqueId /\
                     Member.is_admin m = false /\
                     Member.is_active m = default_is_active) news /\
    users (db w1) = users (db w) /\
    length acc' = length acc + length pre.
Proof.
  induction pre as [|u pre IH]; intros acc w acc' w1; simpl.
  - unfold ret. intros H; inversion H; subst.
    exists []. simpl. rewrite !app_nil_r. repeat split; auto.
  - unfold bind.
    destruct (addMembers_step env cliqueId u acc w) as [[[acc1 | resp]|] w2] eqn:Hs;
      simpl; try discriminate.
    intros Hl.
    apply addMembers_step_continues in Hs.
    destruct Hs as (usr & _ & _ & _ & Hdb & Hacc1 & _ & _).
    apply IH in Hl. destruct Hl as (news & Hm & Hled & Hids & Hall & Hus & Hlen).
    rewrite Hdb in Hm, Hled, Hus. simpl in Hm, Hled, Hus.
    exists (added_member env (tick w) cliqueId u :: news).
    rewrite <- app_assoc in Hm, Hled. simpl in Hm, Hled.
    repeat split; simpl; auto.
    + rewrite Hids. reflexivity.
    + rewrite Hlen, Hacc1, length_app. simpl. lia.
Qed.

(** ** Add members: an active membership is left alone *)

Lemma pair_is_member userId cliqueId m ls d :
  pair_is userId cliqueId m ls d ->
  In m (members d) /\ Member.user_id m = userId /\ Member.clique_id m = cliqueId.
Proof.
  intros [Hm _]. unfold members_of_pair in Hm.
  assert (Hin : In m (filter (fun m => (Member.user_id m =? userId)
                                       && (Member.clique_id m =? cliqueId))
                             (members d))) by (rewrite Hm; left; reflexivity).
  apply filter_In in Hin. destruct Hin as [Hin Hb].
  apply andb_true_iff in Hb. destruct Hb as [Hu Hc].
  apply String.eqb_eq in Hu. apply String.eqb_eq in Hc. auto.
Qed.

Lemma pair_is_unused_id userId cliqueId m ls d newId :
  pair_is userId cliqueId m ls d ->
  existsb (fun m => Member.member_id m =? newId) (members d) = false ->
  (newId =? Member.member_id m) = false.
Proof.
  intros HP Hex. destruct (pair_is_member _ _ _ _ _ HP) as [Hin _].
  destruct (newId =? Member.member_id m) eqn:He; [| reflexivity].
  apply String.eqb_eq in He. subst newId.
  assert (existsb (fun m0 => Member.member_id m0 =? Member.member_id m) (members d)
          = true).
  { apply existsb_exists. exists m. split; [exact Hin | apply String.eqb_refl]. }
  congruence.
Qed.

Lemma pair_is_reactivate userId cliqueId m ls d memberId :
  pair_is userId cliqueId m ls d ->
  Member.is_active m = true ->
  pair_is userId cliqueId m ls
    (set_members (map (fun m0 => if Member.member_id m0 =? memberId
                                 then Member.set_is_active true m0 else m0)
                      (members d)) d).
Proof.
  intros [Hm Hl] Hact. split; [| exact Hl].
  unfold members_of_pair in *; simpl.
  set (upd := fun m0 => if Member.member_id m0 =? memberId
                        then Member.set_is_active true m0 else m0).
  assert (Hcomm : forall l,
    filter (fun m => (Member.user_id m =? userId) && (Member.clique_id m =? cliqueId))
           (map upd l)
    = map upd (filter (fun m => (Member.user_id m =? userId)
                                && (Member.clique_id m =? cliqueId)) l)).
  { induction l as [|x l IH]; simpl; [reflexivity|].
    assert (Hx : ((Member.user_id (upd x) =? userId)
                  && (Member.clique_id (upd x) =? cliqueId))
                 = ((Member.user_id x =? userId) && (Member.clique_id x =? cliqueId))).
    { unfold upd. destruct (Member.member_id x =? memberId); reflexivity. }
    rewrite Hx. destruct ((Member.user_id x =? userId)
                          && (Member.clique_id x =? cliqueId)); simpl;
      rewrite IH; reflexivity. }
  rewrite Hcomm, Hm. simpl. f_equal. unfold upd.
  destruct (Member.member_id m =? memberId); [| reflexivity].
  apply set_is_active_same. exact Hact.
Qed.

Lemma pair_is_add_member userId cliqueId m ls d newMember :
  pair_is userId cliqueId m ls d ->
  Member.clique_id newMember = cliqueId ->
  find (fun m => (Member.user_id m =? Member.user_id newMember)
                 && (Member.clique_id m =? cliqueId)) (members d) = None ->
  pair_is userId cliqueId m ls (set_members (members d ++ [newMember]) d).
Proof.
  intros [Hm Hl] Hc Hnone. split; [| exact Hl].
  unfold members_of_pair in *; simpl. rewrite filter_app, Hm. simpl.
  destruct (Member.user_id newMember =? userId) eqn:Hu; simpl; [| reflexivity].
  apply String.eqb_eq in Hu. rewrite Hu in Hnone.
  apply find_none_filter in Hnone. rewrite Hnone in Hm. discriminate.
Qed.

Lemma pair_is_add_ledger userId cliqueId m ls d l :
  pair_is userId cliqueId m ls d ->
  (Ledger.member_id l =? Member.member_id m) = false ->
  pair_is userId cliqueId m ls (set_ledgers (ledgers d ++ [l]) d).
Proof.
  intros [Hm Hl] Hne. split; [exact Hm|].
  unfold ledgers_of_member in *; simpl. rewrite filter_app, Hl. simpl.
  rewrite Hne. apply app_nil_r.
Qed.

Lemma addMembers_step_keeps_pair env cliqueId userId m ls userId' acc w :
  pair_is userId cliqueId m ls (db w) ->
  Member.is_active m = true ->
  pair_is userId cliqueId m ls (db (snd (addMembers_step env cliqueId userId' acc w))).
Proof.
  intros HP Hact.
  unfold addMembers_step, user_findUnique, member_findFirst, member_create,
    ledger_create, member_update_is_active.
  unfold_handler.
  destruct (rejects env (tick w)); simpl; [exact HP|].
  destruct (find _ (users (db w))) as [usr|]; simpl; [| exact HP].
  destruct (rejects env (S (tick w))); simpl; [exact HP|].
  destruct (rejects env (S (S (tick w)))); simpl; [exact HP|].
  destruct (find _ (members (db w))) as [cm|] eqn:Hcm; simpl.
  - destruct (Member.is_active cm); simpl; [exact HP|].
    destruct (rejects env (S (S (S (tick w))))); simpl; [exact HP|].
    match goal with |- context [match find ?f ?l with _ => _ end] =>
      destruct (find f l) end; simpl; [| exact HP].
    apply pair_is_reactivate; assumption.
  - destruct (rejects env (S (S (S (tick w))))); simpl; [exact HP|].
    destruct (existsb _ (members (db w))) eqn:Hex; simpl; [exact HP|].
    assert (HP2 : pair_is userId cliqueId m ls
              (set_members
                 (members (db w) ++
                  [Member.mk (fresh_id env (S (tick w))) userId' cliqueId false
                             default_is_active (now env (S (S (S (tick w)))))])
                 (db w))).
    { apply pair_is_add_member; [exact HP | reflexivity | exact Hcm]. }
    destruct (rejects env (S (S (S (S (tick w)))))); simpl; [exact HP2|].
    apply (pair_is_add_ledger _ _ _ _ _ _ HP2). simpl.
    exact (pair_is_unused_id _ _ _ _ _ _ HP Hex).
Qed.

Lemma addMembers_loop_keeps_pair env cliqueId userId m ls userIds : forall acc w,
  pair_is userId cliqueId m ls (db w) ->
  Member.is_active m = true ->
  pair_is userId cliqueId m ls
    (db (snd (addMembers_loop env cliqueId userIds acc w))).
Proof.
  induction userIds as [|u rest IH]; intros acc w HP Hact; simpl; [exact HP|].
  unfold bind.
  pose proof (addMembers_step_keeps_pair env cliqueId userId m ls u acc w HP Hact) as Hs.
  destruct (addMembers_step env cliqueId u acc w) as [[[acc1 | resp]|] w1];
    simpl in *; [apply IH; assumption | exact Hs | exact Hs].
Qed.

(** Whatever ids an add-members call for a clique carries and whatever the
    storage does, a user whose only Member row in that clique is active
    keeps exactly that row and exactly the Ledger rows it had. *)
Lemma addMembers_keeps_pair env cliqueId userId m ls body w :
  pair_is userId cliqueId m ls (db w) ->
  Member.is_active m = true ->
  pair_is userId cliqueId m ls (db (snd (addMembers env cliqueId body w))).
Proof.
  intros HP Hact. unfold addMembers, try_catch.
  destruct body as [userIds|]; [| exact HP].
  unfold bind.
  pose proof (addMembers_loop_keeps_pair env cliqueId userId m ls userIds [] w HP Hact)
    as Hl.
  destruct (addMembers_loop env cliqueId userIds [] w) as [[[acc | resp]|] w1];
    simpl in *; [| exact Hl | exact Hl].
  destruct (length acc =? 0)%nat; exact Hl.
Qed.

(** ** Add members: the three ways a call stops early *)

(** C4.  User [userId] has one Member row in the clique and it is active.
    In an add-members call that reaches this id (the ids before it were
    added), the handler answers 409 there and does nothing for the ids
    after it: the database is the one left by the ids before, the user
    still has exactly that one Member row, and that member's Ledger rows
    are the ones it had. *)
Theorem addMembers_active_member_conflict :
  forall env cliqueId userId m usr pre post acc w w1,
    members_of_pair userId cliqueId (db w) = [m] ->
    Member.is_active m = true ->
    find (fun u => User.user_id u =? userId) (users (db w)) = Some usr ->
    addMembers_loop env cliqueId pre [] w = (Ok (inl acc), w1) ->
    accepts env (tick w1) 3 ->
    let r := addMembers env cliqueId (BodyArray (pre ++ userId :: post)) w in
    status (fst r) = 409 /\
    db (snd r) = db w1 /\
    members_of_pair userId cliqueId (db (snd r)) = [m] /\
    ledgers_of_member (Member.member_id m) (db (snd r))
      = ledgers_of_member (Member.member_id m) (db w).
Proof.
  intros env cliqueId userId m usr pre post acc w w1 Hm Hact Hu Hpre Hacc.
  assert (HP : pair_is userId cliqueId m
                 (ledgers_of_member (Member.member_id m) (db w)) (db w))
    by (split; [exact Hm | reflexivity]).
  pose proof (addMembers_loop_keeps_pair env cliqueId userId m _ pre [] w HP Hact) as HP1.
  rewrite Hpre in HP1; simpl in HP1.
  destruct (addMembers_loop_continues _ _ _ _ _ _ _ Hpre) as (news & _ & _ & _ & _ & Hus & _).
  assert (Hstep : addMembers_step env cliqueId userId acc w1 =
    (Ok (inr (mkResponse 409
                (JStatus "FAILURE"
                   ("User with email id: " ++ User.mail usr
                      ++ " already exists in the clique")))),
     mkWorld (db w1) (3 + tick w1) (emitted w1))).
  { apply addMembers_step_conflict with (m := m).
    - rewrite Hus. exact Hu.
    - apply filter_singleton_find. exact (proj1 HP1).
    - exact Hact.
    - exact Hacc. }
  cbv zeta. unfold addMembers, try_catch, bind.
  rewrite addMembers_loop_app, Hpre. simpl. unfold bind. rewrite Hstep. simpl.
  destruct HP1 as [HP1m HP1l]. auto.
Qed.

Lemma addMembers_active_member_conflict_witness :
  let m := Member.mk "m1" "u1" "c1" true true 1003 in
  let w1 := snd (addMembers_loop quiet "c1" ["u3"] [] trip_world) in
  let r := addMembers quiet "c1" (BodyArray (["u3"] ++ "u1" :: ["u2"])) trip_world in
  status (fst r) = 409 /\
  db (snd r) = db w1 /\
  members_of_pair "u1" "c1" (db (snd r)) = [m] /\
  ledgers_of_member "m1" (db (snd r)) = ledgers_of_member "m1" trip_db.
Proof.
  apply (addMembers_active_member_conflict quiet "c1" "u1"
           (Member.mk "m1" "u1" "c1" true true 1003)
           (User.mk "u1" "Alice" "alice@example.org")
           ["u3"] ["u2"]
           [reported_member (added_member quiet 0 "c1" "u3")
                            (User.mk "u3" "Carol" "carol@example.org")]
           trip_world
           (snd (addMembers_loop quiet "c1" ["u3"] [] trip_world))).
  - reflexivity.
  - reflexivity.
  - reflexivity.
  - reflexivity.
  - intros k Hk. reflexivity.
Defined.

(** C5.  The ids before [userId] were added and [userId] does not resolve
    to a user.  The handler answers 404 for that id and does nothing for the
    ids after it; the Member rows and opening Ledger rows written for the
    ids before it are in the database it leaves. *)
Theorem addMembers_unknown_user_stops :
  forall env cliqueId userId pre post acc w w1,
    find (fun u => User.user_id u =? userId) (users (db w)) = None ->
    addMembers_loop env cliqueId pre [] w = (Ok (inl acc), w1) ->
    rejects env (tick w1) = false ->
    let r := addMembers env cliqueId (BodyArray (pre ++ userId :: post)) w in
    fst r = mkResponse 404
              (JStatus "FAILURE" ("User with user_id " ++ userId ++ " not found")) /\
    db (snd r) = db w1 /\
    exists news,
      members (db (snd r)) = members (db w) ++ news /\
      ledgers (db (snd r)) = ledgers (db w) ++ map opening_ledger news /\
      map Member.user_id news = pre /\
      Forall (fun m => Member.clique_id m = cliqueId /\
                       Member.is_admin m = false /\
                       Member.is_active m = default_is_active) news.
Proof.
  intros env cliqueId userId pre post acc w w1 Hu Hpre H0.
  destruct (addMembers_loop_continues _ _ _ _ _ _ _ Hpre)
    as (news & Hm & Hl & Hids & Hall & Hus & _).
  cbv zeta. unfold addMembers, try_catch, bind.
  rewrite addMembers_loop_app, Hpre. simpl. unfold bind.
  rewrite addMembers_step_unknown_user; [| rewrite Hus; exact Hu | exact H0].
  simpl. split; [reflexivity|]. split; [reflexivity|].
  exists news. auto.
Qed.

Lemma addMembers_unknown_user_stops_witness :
  let w1 := snd (addMembers_loop quiet "c1" ["u3"] [] trip_world) in
  let r := addMembers quiet "c1" (BodyArray (["u3"] ++ "ghost" :: ["u2"])) trip_world in
  fst r = mkResponse 404
            (JStatus "FAILURE" ("User with user_id " ++ "ghost" ++ " not found")) /\
  db (snd r) = db w1 /\
  exists news,
    members (db (snd r)) = members trip_db ++ news /\
    ledgers (db (snd r)) = ledgers trip_db ++ map opening_ledger news /\
    map Member.user_id news = ["u3"] /\
    Forall (fun m => Member.clique_id m = "c1" /\
                     Member.is_admin m = false /\
                     Member.is_active m = default_is_active) news.
Proof.
  apply (addMembers_unknown_user_stops quiet "c1" "ghost" ["u3"] ["u2"]
           [reported_member (added_member quiet 0 "c1" "u3")
                            (User.mk "u3" "Carol" "carol@example.org")]
           trip_world
           (snd (addMembers_loop quiet "c1" ["u3"] [] trip_world))).
  - reflexivity.
  - reflexivity.
  - reflexivity.
Defined.

Example addMembers_unknown_user_run :
  let r := addMembers quiet "c1" (BodyArray ["u3"; "ghost"; "u2"]) trip_world in
  status (fst r) = 404 /\
  map Member.member_id (members (db (snd r))) = ["m1"; "m2"; "m9"] /\
  map Ledger.member_id (ledgers (db (snd r))) = ["m1"; "m2"; "m9"] /\
  map Member.is_active (members (db (snd r))) = [true; false; true].
Proof. repeat split. Qed.

(** C2.  Bob ("u2") has an inactive Member row "m2" in clique "c1", with a
    Ledger balance of 12.5; Carol ("u3") is a user without a row.  Adding
    [Bob; Carol]: Bob's row is switched back on in place and no Ledger row
    is written, but the handler then answers 201 from inside the loop, with
    a member list that does not contain Bob, and Carol is never looked at
    ([addMembers_step_reactivates] is this turn of the loop in general). *)
Theorem addMembers_reactivation_ends_the_call :
  let r := addMembers quiet "c1" (BodyArray ["u2"; "u3"]) trip_world in
  fst r = mkResponse 201 (JMembers "SUCCESS" "Members added successfully" []) /\
  members_of_pair "u2" "c1" (db (snd r)) = [Member.mk "m2" "u2" "c1" false true 1010] /\
  ledgers (db (snd r)) = ledgers trip_db /\
  ledgers_of_member "m2" (db (snd r)) = [Ledger.mk "m2" "c1" 12.5%float true] /\
  members_of_pair "u3" "c1" (db (snd r)) = [] /\
  tick (snd r) = 4.
Proof. vm_compute. repeat split. Qed.

(** The same call with the two ids swapped adds Carol and reports her, and
    still leaves Bob out of the answer. *)
Example addMembers_reactivation_last :
  let r := addMembers quiet "c1" (BodyArray ["u3"; "u2"]) trip_world in
  status (fst r) = 201 /\
  map NewMember.user_id
      (match body (fst r) with JMembers _ _ data => data | _ => [] end) = ["u3"] /\
  map (fun m => (Member.user_id m, Member.is_active m)) (members (db (snd r)))
  = [("u1", true); ("u2", true); ("u3", true)].
Proof. vm_compute. repeat split. Qed.

(** * Further properties of the router *)

(** ** Lookups of a clique *)

Lemma clique_missing_find d cliqueId :
  clique_exists d cliqueId = false ->
  find (fun c => Clique.clique_id c =? cliqueId) (cliques d) = None.
Proof. unfold clique_exists. intros H. apply find_none_existsb. exact H. Qed.

(** X1.  A clique id with no row: when the lookup is answered, get-by-id
    and rename both answer 404 and neither writes anything. *)
Theorem missing_clique_is_not_found :
  forall env cliqueId name w,
    clique_exists (db w) cliqueId = false ->
    rejects env (tick w) = false ->
    fst (getClique env cliqueId w) = mkResponse 404 (JMessage "Clique not found") /\
    db (snd (getClique env cliqueId w)) = db w /\
    fst (renameClique env cliqueId name w)
      = mkResponse 404 (JFieldStatus "name" "NOT FOUND") /\
    db (snd (renameClique env cliqueId name w)) = db w.
Proof.
  intros env cliqueId name w Hex H0. apply clique_missing_find in Hex.
  unfold getClique, renameClique, clique_findUnique_with_members, clique_findUnique.
  unfold_handler. rewrite H0; simpl. rewrite Hex; simpl. repeat split.
Qed.

Lemma missing_clique_is_not_found_witness :
  fst (getClique quiet "ghost" trip_world) = mkResponse 404 (JMessage "Clique not found") /\
  db (snd (getClique quiet "ghost" trip_world)) = db trip_world /\
  fst (renameClique quiet "ghost" (Some "Ski") trip_world)
    = mkResponse 404 (JFieldStatus "name" "NOT FOUND") /\
  db (snd (renameClique quiet "ghost" (Some "Ski") trip_world)) = db trip_world.
Proof.
  apply (missing_clique_is_not_found quiet "ghost" (Some "Ski") trip_world);
    reflexivity.
Defined.

(** X2.  Renaming an existing clique to a non-empty name, with the storage
    answering: 200, the rows with that id carry the new name and keep their
    other fields, the other Clique rows and every other table are as they
    were. *)
Theorem renameClique_writes_the_name :
  forall env cliqueId s w,
    clique_exists (db w) cliqueId = true ->
    s <> "" ->
    accepts env (tick w) 2 ->
    let r := renameClique env cliqueId (Some s) w in
    fst r = mkResponse 200 (JFieldStatus "name" "SUCCESS") /\
    cliques (db (snd r)) =
      map (fun c => if Clique.clique_id c =? cliqueId
                    then Clique.mk (Clique.clique_id c) s (Clique.fund c)
                                   (Clique.is_fund c) (Clique.is_active c)
                    else c)
          (cliques (db w)) /\
    (forall c, In c (cliques (db (snd r))) -> Clique.clique_id c = cliqueId ->
               Clique.clique_name c = s) /\
    users (db (snd r)) = users (db w) /\
    members (db (snd r)) = members (db w) /\
    ledgers (db (snd r)) = ledgers (db w) /\
    transactions (db (snd r)) = transactions (db w) /\
    media (db (snd r)) = media (db w).
Proof.
  intros env cliqueId s w Hex Hs Hacc. unfold clique_exists in Hex.
  pose proof (accepts_here _ _ _ Hacc) as H0.
  pose proof (accepts_here _ _ _ (accepts_next _ _ _ Hacc)) as H1.
  assert (Ht : (s =? "") = false) by (apply String.eqb_neq; exact Hs).
  cbv zeta. unfold renameClique, clique_findUnique, clique_update_name, truthy.
  unfold_handler. rewrite H0; simpl.
  destruct (find _ (cliques (db w))) as [c|] eqn:Hf;
    [| apply find_none_existsb in Hf; congruence].
  simpl. rewrite Ht; simpl. rewrite H1; simpl. rewrite Hf; simpl.
  repeat split.
  intros c' Hin Hid. apply in_map_iff in Hin. destruct Hin as [c0 [Heq _]].
  destruct (Clique.clique_id c0 =? cliqueId) eqn:He.
  - subst c'. reflexivity.
  - subst c'. apply String.eqb_neq in He. contradiction.
Qed.

Lemma renameClique_writes_the_name_witness :
  let r := renameClique quiet "c1" (Some "Ski") trip_world in
  fst r = mkResponse 200 (JFieldStatus "name" "SUCCESS") /\
  cliques (db (snd r)) =
    map (fun c => if Clique.clique_id c =? "c1"
                  then Clique.mk (Clique.clique_id c) "Ski" (Clique.fund c)
                                 (Clique.is_fund c) (Clique.is_active c)
                  else c)
        (cliques trip_db) /\
  (forall c, In c (cliques (db (snd r))) -> Clique.clique_id c = "c1" ->
             Clique.clique_name c = "Ski") /\
  users (db (snd r)) = users trip_db /\
  members (db (snd r)) = members trip_db /\
  ledgers (db (snd r)) = ledgers trip_db /\
  transactions (db (snd r)) = transactions trip_db /\
  media (db (snd r)) = media trip_db.
Proof.
  apply (renameClique_writes_the_name quiet "c1" "Ski" trip_world).
  - reflexivity.
  - discriminate.
  - intros k Hk. reflexivity.
Defined.

Lemma include_users_complete d l :
  (forall m, In m l ->
             existsb (fun u => User.user_id u =? Member.user_id m) (users d) = true) ->
  exists mus, include_users d l = Some mus /\ map member mus = l.
Proof.
  induction l as [|m l IH]; intros H; simpl.
  - exists []. split; reflexivity.
  - destruct IH as (mus & Hmus & Hmap); [intros m' Hin; apply H; right; exact Hin|].
    unfold include_user.
    destruct (find (fun u => User.user_id u =? Member.user_id m) (users d)) as [u|] eqn:Hf.
    + rewrite Hmus. exists (mkMemberWithUser m u :: mus). simpl. rewrite Hmap.
      split; reflexivity.
    + apply find_none_existsb in Hf. rewrite H in Hf; [discriminate | left; reflexivity].
Qed.

Lemma active_member_views_ids mus :
  Forall (fun m => Member.is_active m = true) (map member mus) ->
  map MemberView.member_id (active_member_views mus)
  = map Member.member_id (map member mus).
Proof.
  unfold active_member_views. induction mus as [|mu mus IH]; simpl; intros H.
  - reflexivity.
  - inversion H; subst. rewrite H2. simpl. rewrite IH; [reflexivity | assumption].
Qed.

Lemma active_members_all_active d cliqueId :
  Forall (fun m => Member.is_active m = true)
    (filter (fun m => (Member.clique_id m =? cliqueId) && Member.is_active m)
            (members d)).
Proof.
  apply Forall_forall. intros m Hin. apply filter_In in Hin.
  destruct Hin as [_ Hb]. apply andb_true_iff in Hb. exact (proj2 Hb).
Qed.

(** X3.  Get-by-id of an existing clique whose active members all have a
    user row, with the lookup answered: 200, the clique's own fields, and
    exactly the active Member rows of that clique, in storage order. *)
Theorem getClique_shows_every_active_member :
  forall env cliqueId w c,
    find (fun c => Clique.clique_id c =? cliqueId) (cliques (db w)) = Some c ->
    (forall m, In m (members (db w)) ->
               Member.clique_id m = cliqueId -> Member.is_active m = true ->
               existsb (fun u => User.user_id u =? Member.user_id m) (users (db w))
               = true) ->
    rejects env (tick w) = false ->
    exists view,
      fst (getClique env cliqueId w) = mkResponse 200 (JClique view) /\
      CliqueView.clique_id view = cliqueId /\
      CliqueView.clique_name view = Clique.clique_name c /\
      CliqueView.isFund view = Clique.is_fund c /\
      CliqueView.fund view = Clique.fund c /\
      CliqueView.isActive view = Clique.is_active c /\
      map MemberView.member_id (CliqueView.members view)
      = map Member.member_id
          (filter (fun m => (Member.clique_id m =? cliqueId) && Member.is_active m)
                  (members (db w))).
Proof.
  intros env cliqueId w c Hf Husers H0.
  assert (Hid : Clique.clique_id c = cliqueId).
  { apply find_some in Hf. apply String.eqb_eq. exact (proj2 Hf). }
  destruct (include_users_complete (db w)
              (filter (fun m => (Member.clique_id m =? cliqueId) && Member.is_active m)
                      (members (db w)))) as (mus & Hmus & Hmap).
  { intros m Hin. apply filter_In in Hin. destruct Hin as [Hin Hb].
    apply andb_true_iff in Hb. destruct Hb as [Hc Ha].
    apply String.eqb_eq in Hc. apply Husers; assumption. }
  unfold getClique, clique_findUnique_with_members, include_active_members.
  unfold_handler. rewrite H0; simpl. rewrite Hf; simpl. rewrite Hid, Hmus; simpl.
  eexists. split; [reflexivity|]. unfold transformedClique; simpl.
  repeat split; try assumption.
  rewrite active_member_views_ids; rewrite Hmap;
    [reflexivity | apply active_members_all_active].
Qed.

Lemma getClique_shows_every_active_member_witness :
  exists view,
    fst (getClique quiet "c1" trip_world) = mkResponse 200 (JClique view) /\
    CliqueView.clique_id view = "c1" /\
    CliqueView.clique_name view = "Trip" /\
    CliqueView.isFund view = false /\
    CliqueView.fund view = 0%float /\
    CliqueView.isActive view = true /\
    map MemberView.member_id (CliqueView.members view)
    = map Member.member_id
        (filter (fun m => (Member.clique_id m =? "c1") && Member.is_active m)
                (members trip_db)).
Proof.
  apply (getClique_shows_every_active_member quiet "c1" trip_world
           (Clique.mk "c1" "Trip" 0%float false true)).
  - reflexivity.
  - intros m [<- | [<- | []]] _ _; reflexivity.
  - reflexivity.
Defined.

(** ** The list of a user's cliques *)

Lemma cliques_with_includes_complete d cs :
  (forall m, In m (members d) -> Member.is_active m = true ->
             existsb (fun u => User.user_id u =? Member.user_id m) (users d) = true) ->
  exists rs, cliques_with_includes d cs = Some rs /\ map clique rs = cs.
Proof.
  intros Husers. induction cs as [|c cs IH]; simpl.
  - exists []. split; reflexivity.
  - destruct IH as (rs & Hrs & Hmap).
    unfold clique_with_includes, include_active_members.
    destruct (include_users_complete d
                (filter (fun m => (Member.clique_id m =? Clique.clique_id c)
                                  && Member.is_active m) (members d)))
      as (mus & Hmus & _).
    { intros m Hin. apply filter_In in Hin. destruct Hin as [Hin Hb].
      apply andb_true_iff in Hb. apply Husers; [exact Hin | exact (proj2 Hb)]. }
    rewrite Hmus, Hrs. eexists. split; [reflexivity|]. simpl. rewrite Hmap.
    reflexivity.
Qed.

(** X4.  The list-my-cliques handler, when every active member has a user
    row and the query is answered: 200 in every case; the text "No data
    found" when the caller has no active membership; otherwise one record
    per clique in which the caller has an active Member row, in storage
    order and with the clique's own name. *)
Theorem getCliques_lists_active_memberships :
  forall env userId w,
    (forall m, In m (members (db w)) -> Member.is_active m = true ->
               existsb (fun u => User.user_id u =? Member.user_id m) (users (db w))
               = true) ->
    rejects env (tick w) = false ->
    let mine := filter (has_active_member (db w) userId) (cliques (db w)) in
    let r := fst (getCliques env userId w) in
    status r = 200 /\
    (mine = [] -> body r = JText "No data found") /\
    (mine <> [] ->
     exists records,
       body r = JCliques records /\
       map CliqueListItem.clique_id records = map Clique.clique_id mine /\
       map CliqueListItem.clique_name records = map Clique.clique_name mine).
Proof.
  intros env userId w Husers H0. cbv zeta.
  destruct (cliques_with_includes_complete (db w)
              (filter (has_active_member (db w) userId) (cliques (db w))) Husers)
    as (rs & Hrs & Hmap).
  unfold getCliques, clique_findMany_of_user. unfold_handler.
  rewrite H0; simpl. rewrite Hrs; simpl. rewrite <- Hmap.
  destruct rs as [|r0 rs]; simpl.
  - repeat split. intros H; contradiction H; reflexivity.
  - split; [reflexivity|]. split; [discriminate|]. intros _.
    eexists. split; [reflexivity|]. simpl. rewrite !map_map. split; reflexivity.
Qed.

Lemma getCliques_lists_active_memberships_witness :
  let mine := filter (has_active_member trip_db "u1") (cliques trip_db) in
  let r := fst (getCliques quiet "u1" trip_world) in
  status r = 200 /\
  (mine = [] -> body r = JText "No data found") /\
  (mine <> [] ->
   exists records,
     body r = JCliques records /\
     map CliqueListItem.clique_id records = map Clique.clique_id mine /\
     map CliqueListItem.clique_name records = map Clique.clique_name mine).
Proof.
  apply (getCliques_lists_active_memberships quiet "u1" trip_world).
  - intros m [<- | [<- | []]] _; reflexivity.
  - reflexivity.
Defined.

Lemma orderBy_done_at_desc_head l :
  match orderBy_done_at_desc l with
  | [] => l = []
  | t :: _ =>
      In t l /\ forall x, In x l -> Transaction.done_at x <= Transaction.done_at t
  end.
Proof.
  induction l as [|a l IH]; simpl; [reflexivity|].
  destruct (orderBy_done_at_desc l) as [|t rest]; simpl.
  - subst l. split; [left; reflexivity|]. intros x [<- | []]. lia.
  - destruct IH as [Hin Hmax].
    destruct (Transaction.done_at t <=? Transaction.done_at a)%nat eqn:Hle.
    + apply Nat.leb_le in Hle. split; [left; reflexivity|].
      intros x [<- | Hx]; [lia|]. specialize (Hmax x Hx). lia.
    + apply Nat.leb_gt in Hle. split; [right; exact Hin|].
      intros x [<- | Hx]; [lia | apply Hmax; exact Hx].
Qed.

(** Transactions with equal timestamps come out in storage order. *)
Example orderBy_done_at_desc_ties :
  map Transaction.transaction_id
      (orderBy_done_at_desc
         [Transaction.mk "tA" "c1" "spend" 1%float "a" "m1" true 5;
          Transaction.mk "tB" "c1" "spend" 1%float "b" "m1" true 5;
          Transaction.mk "tC" "c1" "spend" 1%float "c" "m1" true 7;
          Transaction.mk "tD" "c1" "spend" 1%float "d" "m1" true 5])
  = ["tC"; "tA"; "tB"; "tD"].
Proof. reflexivity. Qed.

Lemma cliques_with_includes_transactions d cs : forall rs,
  cliques_with_includes d cs = Some rs ->
  forall r, In r rs ->
  clique_transactions r = include_latest_transaction d (Clique.clique_id (clique r)).
Proof.
  induction cs as [|c cs IH]; simpl; intros rs H r Hin.
  - inversion H; subst. destruct Hin.
  - unfold clique_with_includes in H.
    destruct (include_active_members d (Clique.clique_id c)) as [ms|]; [| discriminate].
    destruct (cliques_with_includes d cs) as [rs'|]; [| discriminate].
    inversion H; subst. destruct Hin as [<- | Hin].
    + reflexivity.
    + apply (IH rs' eq_refl). exact Hin.
Qed.

(** X5.  In the list of a user's cliques, [last_transaction] of a record
    is [null] exactly when the clique has no Transaction row, and is
    otherwise the view of a Transaction row of that clique whose [done_at]
    no other transaction of the clique exceeds. *)
Theorem getCliques_last_transaction_is_latest :
  forall env userId w records item,
    body (fst (getCliques env userId w)) = JCliques records ->
    In item records ->
    match CliqueListItem.last_transaction item with
    | None =>
        forall t, In t (transactions (db w)) ->
                  Transaction.clique_id t <> CliqueListItem.clique_id item
    | Some tv =>
        exists t,
          In t (transactions (db w)) /\
          Transaction.clique_id t = CliqueListItem.clique_id item /\
          tv = TransactionView.mk
                 (Transaction.transaction_id t) (CliqueListItem.clique_id item)
                 (Transaction.transaction_type t) (Transaction.amount t)
                 (Transaction.description t) (Transaction.sender_id t)
                 (Transaction.is_verified t) (Transaction.done_at t) /\
          forall t', In t' (transactions (db w)) ->
                     Transaction.clique_id t' = CliqueListItem.clique_id item ->
                     Transaction.done_at t' <= Transaction.done_at t
    end.
Proof.
  intros env userId w records item.
  unfold getCliques, clique_findMany_of_user. unfold_handler.
  destruct (rejects env (tick w)); simpl; [discriminate|].
  destruct (cliques_with_includes _ _) as [rs|] eqn:Hrs; simpl; [| discriminate].
  destruct (length rs =? 0)%nat; simpl; [discriminate|].
  intros Hb Hin. inversion Hb; subst records; clear Hb.
  apply in_map_iff in Hin. destruct Hin as [r [<- Hr]].
  pose proof (cliques_with_includes_transactions _ _ _ Hrs r Hr) as Ht.
  unfold transformedRecord, last_transaction_view; simpl. rewrite Ht.
  unfold include_latest_transaction.
  set (mine := filter (fun t => Transaction.clique_id t =? Clique.clique_id (clique r))
                      (transactions (db w))).
  pose proof (orderBy_done_at_desc_head mine) as Hhead.
  destruct (orderBy_done_at_desc mine) as [|t rest]; simpl.
  - intros t Hin Hc.
    assert (Hm : In t mine).
    { apply filter_In. split; [exact Hin | apply String.eqb_eq; exact Hc]. }
    rewrite Hhead in Hm. destruct Hm.
  - destruct Hhead as [Hin Hmax]. apply filter_In in Hin. destruct Hin as [Hin Hc].
    apply String.eqb_eq in Hc. exists t. repeat split; try assumption.
    intros t' Hin' Hc'. apply Hmax. apply filter_In.
    split; [exact Hin' | apply String.eqb_eq; exact Hc'].
Qed.

Lemma getCliques_last_transaction_is_latest_witness :
  exists t,
    In t (transactions busy_db) /\
    Transaction.clique_id t = "c1" /\
    TransactionView.mk "t3" "c1" "spend" 40%float "hotel" "m1" false 1050
    = TransactionView.mk
        (Transaction.transaction_id t) "c1"
        (Transaction.transaction_type t) (Transaction.amount t)
        (Transaction.description t) (Transaction.sender_id t)
        (Transaction.is_verified t) (Transaction.done_at t) /\
    forall t', In t' (transactions busy_db) ->
               Transaction.clique_id t' = "c1" ->
               Transaction.done_at t' <= Transaction.done_at t.
Proof.
  apply (getCliques_last_transaction_is_latest quiet "u1" busy_world
           [CliqueListItem.mk "c1" "Trip"
              [MemberView.mk "u1" "m1" "Alice" "alice@example.org" true]
              false 0%float true
              (Some (TransactionView.mk "t3" "c1" "spend" 40%float "hotel" "m1"
                                        false 1050))]
           (CliqueListItem.mk "c1" "Trip"
              [MemberView.mk "u1" "m1" "Alice" "alice@example.org" true]
              false 0%float true
              (Some (TransactionView.mk "t3" "c1" "spend" 40%float "hotel" "m1"
                                        false 1050)))).
  - reflexivity.
  - left. reflexivity.
Defined.

(** ** Delete, whatever the storage does *)

(** X6.  A delete call ends in one of three ways: nothing removed (500),
    the Clique rows of that id removed but the transactions still there
    (500), or both removed (204).  It never touches a User, Member, Ledger
    or Media row (the members and ledger entries of a deleted clique stay
    behind), nor a transaction of another clique. *)
Theorem deleteClique_outcomes :
  forall env cliqueId w,
    let r := deleteClique env cliqueId w in
    let without_clique :=
      filter (fun c => negb (Clique.clique_id c =? cliqueId)) (cliques (db w)) in
    let without_transactions :=
      filter (fun t => negb (Transaction.clique_id t =? cliqueId))
             (transactions (db w)) in
    users (db (snd r)) = users (db w) /\
    members (db (snd r)) = members (db w) /\
    ledgers (db (snd r)) = ledgers (db w) /\
    media (db (snd r)) = media (db w) /\
    emitted (snd r) = emitted w /\
    ((status (fst r) = 500 /\ db (snd r) = db w) \/
     (status (fst r) = 500 /\ clique_exists (db w) cliqueId = true /\
      cliques (db (snd r)) = without_clique /\
      transactions (db (snd r)) = transactions (db w)) \/
     (status (fst r) = 204 /\ clique_exists (db w) cliqueId = true /\
      cliques (db (snd r)) = without_clique /\
      transactions (db (snd r)) = without_transactions)).
Proof.
  intros env cliqueId w. cbv zeta.
  unfold deleteClique, clique_delete, transaction_deleteMany, clique_exists.
  unfold_handler.
  destruct (rejects env (tick w)); simpl; [repeat split; left; split; reflexivity|].
  destruct (find _ (cliques (db w))) as [c|] eqn:Hf; simpl;
    [| repeat split; left; split; reflexivity].
  assert (Hex : existsb (fun c => Clique.clique_id c =? cliqueId) (cliques (db w)) = true).
  { apply existsb_exists. exists c. apply find_some in Hf. exact Hf. }
  destruct (rejects env (S (tick w))); simpl; repeat split;
    [right; left | right; right]; repeat split; exact Hex.
Qed.

(** The middle outcome happens. *)
Example deleteClique_keeps_transactions_on_failure :
  let env := mkEnv (fun k => (k =? 1)%nat) (fresh_id quiet) (now quiet) in
  let r := deleteClique env "c1" trip_world in
  status (fst r) = 500 /\
  cliques (db (snd r)) = [] /\
  transactions (db (snd r)) = transactions trip_db.
Proof. repeat split. Qed.

Lemma find_filter_out {A} (f : A -> bool) (l : list A) :
  find f (filter (fun a => negb (f a)) l) = None.
Proof.
  induction l as [|a l IH]; simpl; [reflexivity|].
  destruct (f a) eqn:Hfa; simpl; [exact IH | rewrite Hfa; exact IH].
Qed.

Lemma deleteClique_204_removes env cliqueId w :
  status (fst (deleteClique env cliqueId w)) = 204 ->
  cliques (db (snd (deleteClique env cliqueId w)))
  = filter (fun c => negb (Clique.clique_id c =? cliqueId)) (cliques (db w)).
Proof.
  unfold deleteClique, clique_delete, transaction_deleteMany. unfold_handler.
  split_calls; intros H; try discriminate H; reflexivity.
Qed.

(** X7.  After a delete call that answered 204, get-by-id and rename of the
    same id answer 404 (when their lookup is answered), and the clique is in
    no user's list. *)
Theorem deleted_clique_is_gone :
  forall env cliqueId w,
    status (fst (deleteClique env cliqueId w)) = 204 ->
    let w' := snd (deleteClique env cliqueId w) in
    rejects env (tick w') = false ->
    clique_exists (db w') cliqueId = false /\
    status (fst (getClique env cliqueId w')) = 404 /\
    (forall name, status (fst (renameClique env cliqueId name w')) = 404) /\
    (forall userId mv,
        ~ In (cliqueId, mv) (response_members (fst (getCliques env userId w')))).
Proof.
  intros env cliqueId w H204 w' H0.
  assert (Hc : cliques (db w')
               = filter (fun c => negb (Clique.clique_id c =? cliqueId)) (cliques (db w))).
  { apply deleteClique_204_removes. exact H204. }
  assert (Hfind : find (fun c => Clique.clique_id c =? cliqueId) (cliques (db w')) = None).
  { rewrite Hc. apply find_filter_out. }
  assert (Hex : clique_exists (db w') cliqueId = false).
  { unfold clique_exists. apply find_none_existsb. exact Hfind. }
  split; [exact Hex|]. split; [| split].
  - unfold getClique, clique_findUnique_with_members. unfold_handler.
    rewrite H0; simpl. rewrite Hfind. reflexivity.
  - intros name. unfold renameClique, clique_findUnique. unfold_handler.
    rewrite H0; simpl. rewrite Hfind. reflexivity.
  - intros userId mv.
    unfold getCliques, clique_findMany_of_user. unfold_handler.
    rewrite H0; simpl.
    destruct (cliques_with_includes _ _) as [rs|] eqn:Hrs; simpl; [| intros []].
    destruct (length rs =? 0)%nat; simpl; [intros []|].
    unfold response_members; simpl. intros Hin.
    apply in_flat_map in Hin. destruct Hin as [item [Hitem Hin]].
    apply in_map_iff in Hitem. destruct Hitem as [r [<- Hr]].
    apply in_map_iff in Hin. destruct Hin as [mv' [Heq _]].
    inversion Heq as [[Hid Hmv]]. simpl in Hid.
    assert (Hsrc : forall cs rs0, cliques_with_includes (db w') cs = Some rs0 ->
                   forall r0, In r0 rs0 -> In (clique r0) cs).
    { clear. induction cs as [|c cs IH]; simpl; intros rs0 H r0 Hin.
      - inversion H; subst. destruct Hin.
      - destruct (clique_with_includes (db w') c) as [x|] eqn:Hx; [| discriminate].
        destruct (cliques_with_includes (db w') cs) as [rs'|]; [| discriminate].
        inversion H; subst. destruct Hin as [<- | Hin].
        + left. unfold clique_with_includes in Hx.
          destruct (include_active_members _ _); inversion Hx; reflexivity.
        + right. apply (IH rs' eq_refl). exact Hin. }
    apply (Hsrc _ _ Hrs) in Hr. apply filter_In in Hr. destruct Hr as [Hr _].
    assert (existsb (fun c => Clique.clique_id c =? cliqueId) (cliques (db w')) = true).
    { apply existsb_exists. exists (clique r). split; [exact Hr|].
      apply String.eqb_eq. exact Hid. }
    unfold clique_exists in Hex. congruence.
Qed.

Lemma deleted_clique_is_gone_witness :
  let w' := snd (deleteClique quiet "c1" trip_world) in
  clique_exists (db w') "c1" = false /\
  status (fst (getClique quiet "c1" w')) = 404 /\
  (forall name, status (fst (renameClique quiet "c1" name w')) = 404) /\
  (forall userId mv,
      ~ In ("c1", mv) (response_members (fst (getCliques quiet userId w')))).
Proof.
  apply (deleted_clique_is_gone quiet "c1" trip_world); reflexivity.
Defined.

(** ** Member lists that are empty or not lists *)

(** X8.  A body that is not an array is refused with 400 by add-members and
    by remove-members before anything is awaited.  An empty array makes
    add-members answer 404 ("No valid users found") and remove-members
    answer 204, and the world is left as it was in all four cases. *)
Theorem member_list_edge_cases :
  forall env cliqueId w,
    addMembers env cliqueId BodyOther w =
      (mkResponse 400
         (JStatus "FAILURE" "Invalid input format. Expected an array of user IDs."), w) /\
    removeMembers env BodyOther w =
      (mkResponse 400
         (JStatus "FAILURE" "Invalid input format. Expected an array of user IDs."), w) /\
    addMembers env cliqueId (BodyArray []) w =
      (mkResponse 404
         (JStatus "FAILURE" "No valid users found to add to the clique."), w) /\
    removeMembers env (BodyArray []) w =
      (mkResponse 204 (JStatus "SUCCESS" "Members removed successfully"), w).
Proof. intros env cliqueId w. repeat split. Qed.

(** ** Media *)

(** X9.  An upload call either writes nothing and emits nothing (and does
    not answer 201), or answers 201 with the Media row it appended - built
    from the generated id, the clique, the upload's location and content
    type, and the caller's member id - and emits exactly one
    "media-created" event carrying that row to the clique's room.  No other
    table is touched. *)
Theorem uploadMedia_outcomes :
  forall env cliqueId file senderId w,
    let r := uploadMedia env cliqueId file senderId w in
    users (db (snd r)) = users (db w) /\
    cliques (db (snd r)) = cliques (db w) /\
    members (db (snd r)) = members (db w) /\
    ledgers (db (snd r)) = ledgers (db w) /\
    transactions (db (snd r)) = transactions (db w) /\
    ((status (fst r) <> 201 /\
      media (db (snd r)) = media (db w) /\
      emitted (snd r) = emitted w) \/
     (exists mt loc,
        let row := Media.mk (fresh_id env (tick w)) cliqueId loc mt senderId in
        file = Some (mkUploadedFile (FString mt) (FString loc)) /\
        fst r = mkResponse 201 (JMedia row) /\
        media (db (snd r)) = media (db w) ++ [row] /\
        emitted (snd r) = emitted w ++ [mkEmitted cliqueId "media-created" row])).
Proof.
  intros env cliqueId file senderId w. cbv zeta.
  unfold uploadMedia, fileResponseSchema_parse.
  destruct file as [[mt loc]|]; simpl;
    [| repeat split; left; repeat split; discriminate].
  destruct mt as [mt| |]; simpl;
    try (repeat split; left; repeat split; discriminate).
  destruct loc as [loc| |]; simpl;
    try (repeat split; left; repeat split; discriminate).
  unfold media_create. unfold_handler.
  destruct (rejects env (tick w)); simpl;
    [repeat split; left; repeat split; discriminate|].
  destruct (rejects env (S (tick w))); simpl;
    [repeat split; left; repeat split; discriminate|].
  repeat split. right. exists mt, loc. repeat split.
Qed.

Lemma uploadMedia_201_appends env cliqueId file senderId w :
  status (fst (uploadMedia env cliqueId file senderId w)) = 201 ->
  exists row,
    fst (uploadMedia env cliqueId file senderId w) = mkResponse 201 (JMedia row) /\
    Media.clique_id row = cliqueId /\
    media (db (snd (uploadMedia env cliqueId file senderId w))) = media (db w) ++ [row].
Proof.
  unfold uploadMedia, fileResponseSchema_parse.
  destruct file as [[mt loc]|]; simpl; [| discriminate].
  destruct mt as [mt| |]; simpl; try discriminate.
  destruct loc as [loc| |]; simpl; try discriminate.
  unfold media_create. unfold_handler.
  destruct (rejects env (tick w)); simpl; [discriminate|].
  destruct (rejects env (S (tick w))); simpl; [discriminate|].
  intros _. eexists. repeat split.
Qed.

(** X10.  After an upload to a clique that answered 201, the media list of
    that clique (when its query is answered) is the list it had before
    followed by the new row, and the media list of any other clique is what
    it was. *)
Theorem uploaded_media_is_listed :
  forall env cliqueId file senderId w row other,
    fst (uploadMedia env cliqueId file senderId w) = mkResponse 201 (JMedia row) ->
    let w' := snd (uploadMedia env cliqueId file senderId w) in
    rejects env (tick w') = false ->
    fst (getMedia env other w') =
      Some (mkResponse 200
              (JMediaList
                 (filter (fun m => Media.clique_id m =? other) (media (db w))
                    ++ (if cliqueId =? other then [row] else [])))).
Proof.
  intros env cliqueId file senderId w row other Hr w' H0.
  destruct (uploadMedia_201_appends env cliqueId file senderId w) as (row' & Hr' & Hc & Hm).
  { rewrite Hr. reflexivity. }
  rewrite Hr in Hr'. inversion Hr'; subst row'.
  change (snd (uploadMedia env cliqueId file senderId w)) with w' in Hm.
  clearbody w'.
  unfold getMedia, await, media_findMany. rewrite H0. simpl.
  rewrite Hm, filter_app. simpl. rewrite Hc. reflexivity.
Qed.

Lemma uploaded_media_is_listed_witness :
  let env := mkEnv (fun _ => false) (fun _ => "md1") (fun _ => 0) in
  let file := Some (mkUploadedFile (FString "image/png") (FString "s3://bucket/key")) in
  let row := Media.mk "md1" "c1" "s3://bucket/key" "image/png" "m1" in
  let w' := snd (uploadMedia env "c1" file "m1" trip_world) in
  fst (getMedia env "c1" w') =
    Some (mkResponse 200
            (JMediaList
               (filter (fun m => Media.clique_id m =? "c1") (media trip_db)
                  ++ (if "c1" =? "c1" then [row] else [])))).
Proof.
  apply (uploaded_media_is_listed
           (mkEnv (fun _ => false) (fun _ => "md1") (fun _ => 0)) "c1"
           (Some (mkUploadedFile (FString "image/png") (FString "s3://bucket/key")))
           "m1" trip_world (Media.mk "md1" "c1" "s3://bucket/key" "image/png" "m1") "c1").
  - reflexivity.
  - reflexivity.
Defined.

(** ** What every request preserves *)

(** A relation between worlds that is reflexive, transitive, blind to the
    count of awaited calls, and kept by each write the handlers issue, is
    kept by every request. *)
Section RouterSteps.
Variable R : World -> World -> Prop.
Hypothesis R_refl : forall w, R w w.
Hypothesis R_trans : forall a b c, R a b -> R b c -> R a c.
Hypothesis R_tick : forall w, R w (wrote w (db w)).
Hypothesis R_clique_create : forall w row,
  clique_exists (db w) (Clique.clique_id row) = false ->
  R w (wrote w (set_cliques (cliques (db w) ++ [row]) (db w))).
Hypothesis R_clique_update : forall w cliqueId name,
  R w (wrote w (set_cliques
                  (map (fun c => if Clique.clique_id c =? cliqueId
                                 then Clique.set_clique_name name c else c)
                       (cliques (db w))) (db w))).
Hypothesis R_clique_delete : forall w cliqueId,
  R w (wrote w (set_cliques
                  (filter (fun c => negb (Clique.clique_id c =? cliqueId))
                          (cliques (db w))) (db w))).
Hypothesis R_transaction_deleteMany : forall w cliqueId,
  R w (wrote w (set_transactions
                  (filter (fun t => negb (Transaction.clique_id t =? cliqueId))
                          (transactions (db w))) (db w))).
Hypothesis R_member_create : forall w row,
  member_exists (db w) (Member.member_id row) = false ->
  R w (wrote w (set_members (members (db w) ++ [row]) (db w))).
Hypothesis R_member_update : forall w memberId b,
  R w (wrote w (set_members
                  (map (fun m => if Member.member_id m =? memberId
                                 then Member.set_is_active b m else m)
                       (members (db w))) (db w))).
Hypothesis R_ledger_create : forall w memberId cliqueId,
  R w (wrote w (set_ledgers
                  (ledgers (db w) ++ [Ledger.mk memberId cliqueId 0%float false])
                  (db w))).
Hypothesis R_media_create : forall w row,
  R w (wrote w (set_media (media (db w) ++ [row]) (db w))).
Hypothesis R_emit : forall w r e p,
  R w (mkWorld (db w) (tick w) (emitted w ++ [mkEmitted r e p])).

Lemma steps_ret {A} (a : A) : steps R (ret a).
Proof. intros w. apply R_refl. Qed.

Lemma steps_bind {A B} (m : M A) (k : A -> M B) :
  steps R m -> (forall a, steps R (k a)) -> steps R (bind m k).
Proof.
  intros Hm Hk w. unfold bind. specialize (Hm w).
  destruct (m w) as [[a|] w1]; simpl in *.
  - eapply R_trans; [exact Hm | apply Hk].
  - exact Hm.
Qed.

Lemma steps_try_catch {A} (body : M A) (handler : A) w :
  steps R body -> R w (snd (try_catch body handler w)).
Proof.
  intros Hb. unfold try_catch. specialize (Hb w).
  destruct (body w) as [[a|] w1]; exact Hb.
Qed.

Lemma steps_await_read {A} env (q : Query A) :
  (forall d, snd (q d) = d) -> steps R (await env q).
Proof.
  intros Hq w. unfold await. destruct (rejects env (tick w)); simpl; [apply R_tick|].
  specialize (Hq (db w)). destruct (q (db w)) as [r d]; simpl in *. subst d.
  apply R_tick.
Qed.

Lemma steps_generateId env : steps R (generateId env).
Proof.
  intros w. unfold generateId. destruct (rejects env (tick w)); apply R_tick.
Qed.

Lemma steps_clique_create env row : steps R (await env (clique_create row)).
Proof.
  intros w. unfold await, clique_create.
  destruct (rejects env (tick w)); simpl; [apply R_tick|].
  destruct (existsb _ (cliques (db w))) eqn:He; simpl;
    [apply R_tick | apply R_clique_create; exact He].
Qed.

Lemma steps_clique_update env cliqueId name :
  steps R (await env (clique_update_name cliqueId name)).
Proof.
  intros w. unfold await, clique_update_name.
  destruct (rejects env (tick w)); simpl; [apply R_tick|].
  destruct (find _ (cliques (db w))); simpl; [apply R_clique_update | apply R_tick].
Qed.

Lemma steps_clique_delete env cliqueId : steps R (await env (clique_delete cliqueId)).
Proof.
  intros w. unfold await, clique_delete.
  destruct (rejects env (tick w)); simpl; [apply R_tick|].
  destruct (find _ (cliques (db w))); simpl; [apply R_clique_delete | apply R_tick].
Qed.

Lemma steps_transaction_deleteMany env cliqueId :
  steps R (await env (transaction_deleteMany cliqueId)).
Proof.
  intros w. unfold await, transaction_deleteMany.
  destruct (rejects env (tick w)); simpl;
    [apply R_tick | apply R_transaction_deleteMany].
Qed.

Lemma steps_member_create env row : steps R (await env (member_create row)).
Proof.
  intros w. unfold await, member_create.
  destruct (rejects env (tick w)); simpl; [apply R_tick|].
  destruct (existsb _ (members (db w))) eqn:He; simpl;
    [apply R_tick | apply R_member_create; exact He].
Qed.

Lemma steps_member_update env memberId b :
  steps R (await env (member_update_is_active memberId b)).
Proof.
  intros w. unfold await, member_update_is_active.
  destruct (rejects env (tick w)); simpl; [apply R_tick|].
  destruct (find _ (members (db w))); simpl; [apply R_member_update | apply R_tick].
Qed.

Lemma steps_ledger_create env memberId cliqueId :
  steps R (await env (ledger_create (Ledger.mk memberId cliqueId 0%float false))).
Proof.
  intros w. unfold await, ledger_create.
  destruct (rejects env (tick w)); simpl; [apply R_tick | apply R_ledger_create].
Qed.

Lemma steps_media_create env row : steps R (await env (media_create row)).
Proof.
  intros w. unfold await, media_create.
  destruct (rejects env (tick w)); simpl; [apply R_tick | apply R_media_create].
Qed.

Ltac steps_go :=
  repeat first
    [ apply steps_ret
    | apply steps_generateId
    | apply steps_clique_create
    | apply steps_clique_update
    | apply steps_clique_delete
    | apply steps_transaction_deleteMany
    | apply steps_member_create
    | apply steps_member_update
    | apply steps_ledger_create
    | apply steps_media_create
    | apply steps_bind; [| intros ?]
    | apply steps_await_read; intros ?; unfold_queries; simpl;
      repeat match goal with
        | |- context [match ?x with _ => _ end] => destruct x; simpl
        end;
      reflexivity
    | match goal with
      | |- steps _ (match ?x with _ => _ end) => destruct x
      | |- steps _ (if ?x then _ else _) => destruct x
      end ].

Lemma getCliques_steps env userId w : R w (snd (getCliques env userId w)).
Proof. unfold getCliques. apply steps_try_catch. steps_go. Qed.

Lemma createClique_steps env caller name funds w :
  R w (snd (createClique env caller name funds w)).
Proof.
  unfold createClique. apply steps_try_catch.
  apply steps_bind; [apply steps_generateId | intros newCliqueId].
  apply steps_bind; [apply steps_clique_create | intros newClique].
  apply steps_bind; [apply steps_generateId | intros newMemberId].
  apply steps_bind; [intros w0; apply R_refl | intros joined].
  apply steps_bind; [apply steps_member_create | intros newMember].
  apply steps_bind; [apply steps_ledger_create | intros _]. apply steps_ret.
Qed.

Lemma getClique_steps env cliqueId w : R w (snd (getClique env cliqueId w)).
Proof. unfold getClique. apply steps_try_catch. steps_go. Qed.

Lemma renameClique_steps env cliqueId name w :
  R w (snd (renameClique env cliqueId name w)).
Proof. unfold renameClique. apply steps_try_catch. steps_go. Qed.

Lemma deleteClique_steps env cliqueId w : R w (snd (deleteClique env cliqueId w)).
Proof. unfold deleteClique. apply steps_try_catch. steps_go. Qed.

Lemma addMembers_step_steps env cliqueId userId acc :
  steps R (addMembers_step env cliqueId userId acc).
Proof.
  unfold addMembers_step.
  apply steps_bind; [steps_go | intros [usr|]; [| apply steps_ret]].
  apply steps_bind; [apply steps_generateId | intros newMemberId].
  apply steps_bind; [steps_go | intros [cm|]].
  - destruct (Member.is_active cm); [apply steps_ret|].
    apply steps_bind; [apply steps_member_update | intros _; apply steps_ret].
  - apply steps_bind; [intros w0; apply R_refl | intros joined].
    apply steps_bind; [apply steps_member_create | intros newMember].
    apply steps_bind; [apply steps_ledger_create | intros _]. apply steps_ret.
Qed.

Lemma addMembers_loop_steps env cliqueId userIds : forall acc,
  steps R (addMembers_loop env cliqueId userIds acc).
Proof.
  induction userIds as [|u rest IH]; intros acc; simpl; [apply steps_ret|].
  apply steps_bind; [apply addMembers_step_steps|].
  intros [acc' | resp]; [apply IH | apply steps_ret].
Qed.

Lemma addMembers_steps env cliqueId body w :
  R w (snd (addMembers env cliqueId body w)).
Proof.
  unfold addMembers. apply steps_try_catch.
  destruct body as [userIds|]; [| apply steps_ret].
  apply steps_bind; [apply addMembers_loop_steps|].
  intros [acc | resp]; [| apply steps_ret].
  destruct (length acc =? 0)%nat; apply steps_ret.
Qed.

Lemma removeMembers_loop_steps env userIds : steps R (removeMembers_loop env userIds).
Proof.
  induction userIds as [|u rest IH]; simpl; [apply steps_ret|].
  apply steps_bind; [apply steps_member_update | intros _; exact IH].
Qed.

Lemma removeMembers_steps env body w : R w (snd (removeMembers env body w)).
Proof.
  unfold removeMembers. apply steps_try_catch.
  destruct body as [userIds|]; [| apply steps_ret].
  apply steps_bind; [apply removeMembers_loop_steps | intros _; apply steps_ret].
Qed.

Lemma getMedia_steps env cliqueId w : R w (snd (getMedia env cliqueId w)).
Proof.
  unfold getMedia.
  pose proof (steps_await_read env (media_findMany cliqueId) (fun d => eq_refl) w) as H.
  destruct (await env (media_findMany cliqueId) w) as [[l|] w1]; exact H.
Qed.

Lemma uploadMedia_steps env cliqueId file senderId w :
  R w (snd (uploadMedia env cliqueId file senderId w)).
Proof.
  unfold uploadMedia. destruct file as [f|]; [| apply R_refl].
  destruct (fileResponseSchema_parse f) as [[mt loc]|]; [| apply R_refl].
  apply steps_try_catch.
  apply steps_bind; [apply steps_generateId | intros mediaId].
  apply steps_bind; [apply steps_media_create | intros media0].
  apply steps_bind; [intros w0; apply R_emit | intros _]. apply steps_ret.
Qed.

Lemma handle_steps env req w : R w (snd (handle env req w)).
Proof.
  destruct req; simpl.
  - apply getCliques_steps.
  - apply createClique_steps.
  - apply getClique_steps.
  - apply renameClique_steps.
  - apply deleteClique_steps.
  - apply addMembers_steps.
  - apply removeMembers_steps.
  - apply getMedia_steps.
  - apply uploadMedia_steps.
Qed.

End RouterSteps.

Lemma serve_steps (R : World -> World -> Prop) env :
  (forall w, R w w) ->
  (forall a b c, R a b -> R b c -> R a c) ->
  (forall req w, R w (snd (handle env req w))) ->
  forall reqs w, R w (serve env reqs w).
Proof.
  intros Hrefl Htrans Hstep reqs. unfold serve.
  induction reqs as [|req reqs IH]; intros w; simpl; [apply Hrefl|].
  eapply Htrans; [apply Hstep | apply IH].
Qed.

Lemma only_grows_refl d : only_grows d d.
Proof.
  repeat split.
  - exists []. rewrite app_nil_r. split; [reflexivity | constructor].
  - exists []. rewrite app_nil_r. reflexivity.
  - exists []. rewrite app_nil_r. reflexivity.
Qed.

Lemma only_grows_trans a b c : only_grows a b -> only_grows b c -> only_grows a c.
Proof.
  intros (Hu1 & (l1 & Hl1 & Hz1) & (k1 & Hk1) & (m1 & Hm1))
         (Hu2 & (l2 & Hl2 & Hz2) & (k2 & Hk2) & (m2 & Hm2)).
  repeat split.
  - congruence.
  - exists (l1 ++ l2). rewrite Hl2, Hl1, app_assoc. split; [reflexivity|].
    apply Forall_app. split; assumption.
  - exists (k1 ++ k2). rewrite Hk2, Hk1, app_assoc. reflexivity.
  - exists (m1 ++ m2). rewrite Hm2, Hm1, app_assoc. reflexivity.
Qed.

Lemma only_grows_same d d' :
  users d' = users d -> ledgers d' = ledgers d -> members d' = members d ->
  media d' = media d -> only_grows d d'.
Proof.
  intros Hu Hl Hm Hme. unfold only_grows. rewrite Hu, Hl, Hm, Hme.
  apply only_grows_refl.
Qed.

Lemma handle_only_grows env req w : only_grows (db w) (db (snd (handle env req w))).
Proof.
  apply (handle_steps (fun w w' => only_grows (db w) (db w'))).
  - intros w0. apply only_grows_refl.
  - intros a b c. apply only_grows_trans.
  - intros w0. apply only_grows_refl.
  - intros w0 row _. apply only_grows_same; reflexivity.
  - intros w0 cliqueId name. apply only_grows_same; reflexivity.
  - intros w0 cliqueId. apply only_grows_same; reflexivity.
  - intros w0 cliqueId. apply only_grows_same; reflexivity.
  - intros w0 row _. unfold only_grows; simpl. repeat split.
    + exists []. rewrite app_nil_r. split; [reflexivity | constructor].
    + exists [member_key row]. rewrite map_app. reflexivity.
    + exists []. rewrite app_nil_r. reflexivity.
  - intros w0 memberId b. unfold only_grows; simpl. repeat split.
    + exists []. rewrite app_nil_r. split; [reflexivity | constructor].
    + exists []. rewrite app_nil_r, map_map. apply map_ext.
      intros m. destruct (Member.member_id m =? memberId); reflexivity.
    + exists []. rewrite app_nil_r. reflexivity.
  - intros w0 memberId cliqueId. unfold only_grows; simpl. repeat split.
    + eexists. split; [reflexivity|]. constructor; [split; reflexivity | constructor].
    + exists []. rewrite app_nil_r. reflexivity.
    + exists []. rewrite app_nil_r. reflexivity.
  - intros w0 row. unfold only_grows; simpl. repeat split.
    + exists []. rewrite app_nil_r. split; [reflexivity | constructor].
    + exists []. rewrite app_nil_r. reflexivity.
    + exists [row]. reflexivity.
  - intros w0 r e p. apply only_grows_refl.
Qed.

(** X11.  Over any sequence of requests, whatever the storage does: the
    User table is never written; Ledger rows are never changed or removed,
    and every Ledger row added has balance 0 and [is_due = false]; Member
    rows are never removed and never change in anything but [is_active];
    Media rows are never changed or removed. *)
Theorem requests_only_grow_the_ledger :
  forall env reqs w, only_grows (db w) (db (serve env reqs w)).
Proof.
  intros env reqs w.
  apply (serve_steps (fun w w' => only_grows (db w) (db w')) env).
  - intros w0. apply only_grows_refl.
  - intros a b c. apply only_grows_trans.
  - intros req w0. apply handle_only_grows.
Qed.

Lemma NoDup_snoc {A} (l : list A) (a : A) : NoDup l -> ~ In a l -> NoDup (l ++ [a]).
Proof.
  induction l as [|x l IH]; simpl; intros Hnd Hin.
  - constructor; [intros [] | constructor].
  - inversion Hnd; subst. constructor.
    + rewrite in_app_iff. simpl. intros [H | [H | []]]; [contradiction|].
      apply Hin. left. symmetry. exact H.
    + apply IH; [assumption|]. intros H. apply Hin. right. exact H.
Qed.

Lemma filter_keeps_keys_unique {A} (key : A -> string) (keep : A -> bool) rows :
  NoDup (map key rows) -> NoDup (map key (filter keep rows)).
Proof.
  intros Hnd. induction rows as [|row rows IH]; simpl in *; [constructor|].
  inversion Hnd as [|? ? Hnotin Hrest]; subst.
  destruct (keep row); simpl; [| exact (IH Hrest)].
  constructor; [| exact (IH Hrest)].
  intros Hin. apply in_map_iff in Hin. destruct Hin as [other [Hkey Hin]].
  apply filter_In in Hin. apply Hnotin. rewrite <- Hkey.
  apply in_map. exact (proj1 Hin).
Qed.

Lemma existsb_false_not_in {A} (key : A -> string) (l : list A) (k : string) :
  existsb (fun a => key a =? k) l = false -> ~ In k (map key l).
Proof.
  intros He Hin. apply in_map_iff in Hin. destruct Hin as [a [Hk Hin]].
  assert (existsb (fun a => key a =? k) l = true).
  { apply existsb_exists. exists a. split; [exact Hin | apply String.eqb_eq; exact Hk]. }
  congruence.
Qed.

Lemma handle_keeps_unique_ids env req w :
  unique_ids (db w) -> unique_ids (db (snd (handle env req w))).
Proof.
  apply (handle_steps (fun w w' => unique_ids (db w) -> unique_ids (db w'))).
  - auto.
  - auto.
  - auto.
  - intros w0 row He [Hc Hm]. split; [| exact Hm]. simpl. rewrite map_app. simpl.
    apply NoDup_snoc; [exact Hc | apply existsb_false_not_in; exact He].
  - intros w0 cliqueId name [Hc Hm]. split; [| exact Hm]. simpl.
    rewrite map_map.
    replace (map _ (cliques (db w0))) with (map Clique.clique_id (cliques (db w0)));
      [exact Hc|].
    apply map_ext. intros c. destruct (Clique.clique_id c =? cliqueId); reflexivity.
  - intros w0 cliqueId [Hc Hm]. split; [| exact Hm]. simpl.
    apply filter_keeps_keys_unique. exact Hc.
  - intros w0 cliqueId H. exact H.
  - intros w0 row He [Hc Hm]. split; [exact Hc|]. simpl. rewrite map_app. simpl.
    apply NoDup_snoc; [exact Hm | apply existsb_false_not_in; exact He].
  - intros w0 memberId b [Hc Hm]. split; [exact Hc|]. simpl. rewrite map_map.
    replace (map _ (members (db w0))) with (map Member.member_id (members (db w0)));
      [exact Hm|].
    apply map_ext. intros m. destruct (Member.member_id m =? memberId); reflexivity.
  - intros w0 memberId cliqueId H. exact H.
  - intros w0 row H. exact H.
  - intros w0 r e p H. exact H.
Qed.

(** X12.  Clique ids and member ids stay unique: if no two Clique rows
    share a [clique_id] and no two Member rows a [member_id], the same holds
    after any sequence of requests, whatever identifiers the generators
    return and whatever the storage rejects. *)
Theorem requests_keep_ids_unique :
  forall env reqs w,
    unique_ids (db w) -> unique_ids (db (serve env reqs w)).
Proof.
  intros env reqs w.
  apply (serve_steps (fun w w' => unique_ids (db w) -> unique_ids (db w')) env).
  - auto.
  - auto.
  - intros req w0. apply handle_keeps_unique_ids.
Qed.

Lemma requests_keep_ids_unique_witness :
  unique_ids
    (db (serve quiet
           [CreateClique alice "Ski" 10%float;
            AddMembers "c1" (BodyArray ["u3"; "u2"]);
            RemoveMembers (BodyArray ["m1"]);
            DeleteClique "c1"]
           trip_world)).
Proof.
  apply (requests_keep_ids_unique quiet
           [CreateClique alice "Ski" 10%float;
            AddMembers "c1" (BodyArray ["u3"; "u2"]);
            RemoveMembers (BodyArray ["m1"]);
            DeleteClique "c1"]
           trip_world).
  split; simpl; repeat constructor; simpl; intuition discriminate.
Defined.

(** X13.  Only a media upload publishes to a room: a request of any other
    kind leaves the log of emitted events as it was. *)
Theorem only_uploads_emit :
  forall env req w,
    (forall cliqueId file senderId, req <> UploadMedia cliqueId file senderId) ->
    emitted (snd (handle env req w)) = emitted w.
Proof.
  intros env req w Hreq.
  set (R := fun w w' : World => emitted w' = emitted w).
  assert (Htrans : forall a b c : World, R a b -> R b c -> R a c)
    by (unfold R; intros; congruence).
  destruct req; simpl.
  - apply (getCliques_steps R); unfold R; auto.
  - apply (createClique_steps R); unfold R; auto.
  - apply (getClique_steps R); unfold R; auto.
  - apply (renameClique_steps R); unfold R; auto.
  - apply (deleteClique_steps R); unfold R; auto.
  - apply (addMembers_steps R); unfold R; auto.
  - apply (removeMembers_steps R); unfold R; auto.
  - apply (getMedia_steps R); unfold R; auto.
  - exfalso. apply (Hreq cliqueId file senderId). reflexivity.
Qed.

Lemma only_uploads_emit_witness :
  emitted (snd (handle quiet (AddMembers "c1" (BodyArray ["u3"])) trip_world))
  = emitted trip_world.
Proof.
  apply (only_uploads_emit quiet (AddMembers "c1" (BodyArray ["u3"])) trip_world).
  intros cliqueId file senderId. discriminate.
Defined.

(** ** Add members: a list of new users *)

Lemma addMembers_step_adds env cliqueId userId acc w usr :
  find (fun u => User.user_id u =? userId) (users (db w)) = Some usr ->
  find (fun m => (Member.user_id m =? userId) && (Member.clique_id m =? cliqueId))
       (members (db w)) = None ->
  member_exists (db w) (Member.member_id (added_member env (tick w) cliqueId userId))
  = false ->
  accepts env (tick w) 5 ->
  addMembers_step env cliqueId userId acc w =
    (Ok (inl (acc ++ [reported_member (added_member env (tick w) cliqueId userId) usr])),
     mkWorld
       (set_ledgers
          (ledgers (db w) ++ [opening_ledger (added_member env (tick w) cliqueId userId)])
          (set_members (members (db w) ++ [added_member env (tick w) cliqueId userId])
                       (db w)))
       (5 + tick w) (emitted w)).
Proof.
  intros Hu Hm Hex Hacc. unfold member_exists in Hex. simpl in Hex.
  pose proof (Hacc 0 ltac:(lia)) as H0. pose proof (Hacc 1 ltac:(lia)) as H1.
  pose proof (Hacc 2 ltac:(lia)) as H2. pose proof (Hacc 3 ltac:(lia)) as H3.
  pose proof (Hacc 4 ltac:(lia)) as H4.
  rewrite Nat.add_0_r in H0.
  replace (tick w + 1) with (S (tick w)) in H1 by lia.
  replace (tick w + 2) with (S (S (tick w))) in H2 by lia.
  replace (tick w + 3) with (S (S (S (tick w)))) in H3 by lia.
  replace (tick w + 4) with (S (S (S (S (tick w))))) in H4 by lia.
  unfold addMembers_step, user_findUnique, member_findFirst, member_create,
    ledger_create, added_member. unfold_handler.
  rewrite H0; simpl. rewrite Hu; simpl. rewrite H1; simpl. rewrite H2; simpl.
  rewrite Hm; simpl. rewrite H3; simpl. rewrite Hex; simpl. rewrite H4; simpl.
  reflexivity.
Qed.

Lemma reports_users d d' n m : users d' = users d -> reports d n m -> reports d' n m.
Proof. unfold reports. intros ->. auto. Qed.

Lemma addMembers_loop_adds env cliqueId userIds : forall acc w,
  NoDup userIds ->
  (forall u, In u userIds ->
             existsb (fun x => User.user_id x =? u) (users (db w)) = true) ->
  (forall u, In u userIds -> members_of_pair u cliqueId (db w) = []) ->
  Forall (fun m => member_exists (db w) (Member.member_id m) = false)
         (added_members env (tick w) cliqueId userIds) ->
  NoDup (map Member.member_id (added_members env (tick w) cliqueId userIds)) ->
  accepts env (tick w) (5 * length userIds) ->
  exists data,
    addMembers_loop env cliqueId userIds acc w =
      (Ok (inl (acc ++ data)),
       mkWorld
         (set_ledgers
            (ledgers (db w)
               ++ map opening_ledger (added_members env (tick w) cliqueId userIds))
            (set_members
               (members (db w) ++ added_members env (tick w) cliqueId userIds) (db w)))
         (5 * length userIds + tick w) (emitted w)) /\
    Forall2 (reports (db w)) data (added_members env (tick w) cliqueId userIds).
Proof.
  induction userIds as [|u rest IH]; intros acc w Hnd Husers Hnew Hfresh Hids Hacc.
  - exists []. simpl. unfold ret. rewrite !app_nil_r. split; [| constructor].
    f_equal. destruct w as [[] ? ?]; reflexivity.
  - simpl in Hfresh, Hids. inversion Hnd as [|? ? Hnotin Hnd']; subst.
    inversion Hfresh as [|? ? Hm_fresh Hfresh']; subst.
    inversion Hids as [|? ? Hid_notin Hids']; subst.
    destruct (find (fun x => User.user_id x =? u) (users (db w))) as [usr|] eqn:Hu.
    2:{ apply find_none_existsb in Hu. rewrite Husers in Hu; [discriminate|].
        left; reflexivity. }
    assert (Hpair : find (fun m => (Member.user_id m =? u)
                                   && (Member.clique_id m =? cliqueId))
                         (members (db w)) = None).
    { destruct (find _ (members (db w))) as [m|] eqn:Hf; [| reflexivity].
      assert (Hin : In m (members_of_pair u cliqueId (db w))).
      { unfold members_of_pair. apply find_some in Hf. apply filter_In. exact Hf. }
      rewrite Hnew in Hin; [destruct Hin | left; reflexivity]. }
    assert (Hacc5 : accepts env (tick w) 5).
    { intros k Hk. apply Hacc. simpl. lia. }
    pose proof (addMembers_step_adds env cliqueId u acc w usr Hu Hpair Hm_fresh Hacc5)
      as Hstep.
    set (m := added_member env (tick w) cliqueId u) in *.
    set (w2 := mkWorld
                 (set_ledgers (ledgers (db w) ++ [opening_ledger m])
                    (set_members (members (db w) ++ [m]) (db w)))
                 (5 + tick w) (emitted w)) in *.
    destruct (IH (acc ++ [reported_member m usr]) w2) as (data & Hloop & Hrep).
    + exact Hnd'.
    + intros u' Hin. simpl. apply Husers. right. exact Hin.
    + intros u' Hin. unfold members_of_pair. simpl. rewrite filter_app.
      fold (members_of_pair u' cliqueId (db w)).
      rewrite Hnew by (right; exact Hin). simpl.
      destruct (u =? u') eqn:He; [| reflexivity].
      apply String.eqb_eq in He. subst u'. contradiction.
    + simpl. apply Forall_forall. intros m' Hin.
      unfold member_exists. simpl. rewrite existsb_app. simpl.
      rewrite Forall_forall in Hfresh'. specialize (Hfresh' m' Hin).
      unfold member_exists in Hfresh'. rewrite Hfresh'. simpl.
      rewrite orb_false_r.
      destruct (fresh_id env (S (tick w)) =? Member.member_id m') eqn:He;
        [| reflexivity].
      apply String.eqb_eq in He. exfalso. apply Hid_notin.
      simpl. rewrite He. apply in_map. exact Hin.
    + exact Hids'.
    + intros k Hk. simpl.
      replace (S (S (S (S (S (tick w + k)))))) with (tick w + (5 + k)) by lia.
      apply Hacc. simpl in *. lia.
    + exists (reported_member m usr :: data). split.
      * simpl. unfold bind. rewrite Hstep. fold w2. rewrite Hloop.
        rewrite <- app_assoc. simpl. f_equal. f_equal.
        -- destruct w as [[] ? ?]; simpl. rewrite <- !app_assoc. reflexivity.
        -- simpl. lia.
      * simpl. constructor.
        -- fold m. exists usr. split; [exact Hu | reflexivity].
        -- eapply Forall2_impl; [| exact Hrep].
           intros n m'. apply reports_users. reflexivity.
Qed.

Lemma added_members_user_ids env t cliqueId userIds :
  map Member.user_id (added_members env t cliqueId userIds) = userIds.
Proof.
  revert t. induction userIds as [|u rest IH]; intros t; simpl;
    [reflexivity | rewrite IH; reflexivity].
Qed.

(** X14.  A non-empty list of distinct users, none of whom has a Member row
    in the clique, with unused and distinct generated member ids and a
    storage that answers: the handler answers 201, appends one Member row
    ([is_admin = false]) per id in the order of the list, each followed in
    the Ledger table by its zero-balance entry, reports exactly these rows
    with the users' names and mails, and writes nothing else. *)
Theorem addMembers_adds_every_new_user :
  forall env cliqueId userIds w,
    userIds <> [] ->
    NoDup userIds ->
    (forall u, In u userIds ->
               existsb (fun x => User.user_id x =? u) (users (db w)) = true) ->
    (forall u, In u userIds -> members_of_pair u cliqueId (db w) = []) ->
    Forall (fun m => member_exists (db w) (Member.member_id m) = false)
           (added_members env (tick w) cliqueId userIds) ->
    NoDup (map Member.member_id (added_members env (tick w) cliqueId userIds)) ->
    accepts env (tick w) (5 * length userIds) ->
    let r := addMembers env cliqueId (BodyArray userIds) w in
    let news := added_members env (tick w) cliqueId userIds in
    exists data,
      fst r = mkResponse 201 (JMembers "SUCCESS" "Members added successfully" data) /\
      Forall2 (reports (db w)) data news /\
      map Member.user_id news = userIds /\
      members (db (snd r)) = members (db w) ++ news /\
      ledgers (db (snd r)) = ledgers (db w) ++ map opening_ledger news /\
      users (db (snd r)) = users (db w) /\
      cliques (db (snd r)) = cliques (db w) /\
      transactions (db (snd r)) = transactions (db w) /\
      media (db (snd r)) = media (db w).
Proof.
  intros env cliqueId userIds w Hne Hnd Husers Hnew Hfresh Hids Hacc. cbv zeta.
  destruct (addMembers_loop_adds env cliqueId userIds [] w Hnd Husers Hnew Hfresh
              Hids Hacc) as (data & Hloop & Hrep).
  exists data. unfold addMembers, try_catch, bind. rewrite Hloop. simpl.
  assert (Hlen : (length data =? 0)%nat = false).
  { apply Nat.eqb_neq. apply Forall2_length in Hrep. rewrite Hrep.
    rewrite <- (length_map Member.user_id), added_members_user_ids.
    destruct userIds; [contradiction Hne; reflexivity | discriminate]. }
  rewrite Hlen. simpl. repeat split; try assumption.
  apply added_members_user_ids.
Qed.

Lemma addMembers_adds_every_new_user_witness :
  let r := addMembers numbered "c1" (BodyArray ["u3"; "u2"]) solo_world in
  let news := added_members numbered 0 "c1" ["u3"; "u2"] in
  exists data,
    fst r = mkResponse 201 (JMembers "SUCCESS" "Members added successfully" data) /\
    Forall2 (reports solo_db) data news /\
    map Member.user_id news = ["u3"; "u2"] /\
    members (db (snd r)) = members solo_db ++ news /\
    ledgers (db (snd r)) = ledgers solo_db ++ map opening_ledger news /\
    users (db (snd r)) = users solo_db /\
    cliques (db (snd r)) = cliques solo_db /\
    transactions (db (snd r)) = transactions solo_db /\
    media (db (snd r)) = media solo_db.
Proof.
  apply (addMembers_adds_every_new_user numbered "c1" ["u3"; "u2"] solo_world).
  - discriminate.
  - repeat constructor; simpl; intuition discriminate.
  - intros u [<- | [<- | []]]; reflexivity.
  - intros u [<- | [<- | []]]; reflexivity.
  - repeat constructor.
  - repeat constructor; simpl; intuition discriminate.
  - intros k Hk. reflexivity.
Defined.

Example addMembers_two_new_users :
  let r := addMembers numbered "c1" (BodyArray ["u3"; "u2"]) solo_world in
  map (fun m => (Member.member_id m, Member.user_id m)) (members (db (snd r)))
  = [("m1", "u1"); ("m11", "u3"); ("m12", "u2")] /\
  map Ledger.member_id (ledgers (db (snd r))) = ["m1"; "m11"; "m12"].
Proof. split; reflexivity. Qed.

(** ** Leaving and coming back *)

Lemma filter_pair_map (f : Member.t -> Member.t) userId cliqueId l :
  (forall m, Member.user_id (f m) = Member.user_id m) ->
  (forall m, Member.clique_id (f m) = Member.clique_id m) ->
  filter (fun m => (Member.user_id m =? userId) && (Member.clique_id m =? cliqueId))
         (map f l)
  = map f (filter (fun m => (Member.user_id m =? userId)
                            && (Member.clique_id m =? cliqueId)) l).
Proof.
  intros Hu Hc. induction l as [|x l IH]; simpl; [reflexivity|].
  rewrite Hu, Hc.
  destruct ((Member.user_id x =? userId) && (Member.clique_id x =? cliqueId)); simpl;
    rewrite IH; reflexivity.
Qed.

Lemma soft_delete_user_id ids m : Member.user_id (soft_delete ids m) = Member.user_id m.
Proof. unfold soft_delete. destruct (existsb _ ids); reflexivity. Qed.

Lemma soft_delete_clique_id ids m :
  Member.clique_id (soft_delete ids m) = Member.clique_id m.
Proof. unfold soft_delete. destruct (existsb _ ids); reflexivity. Qed.

Lemma soft_delete_member_id ids m :
  Member.member_id (soft_delete ids m) = Member.member_id m.
Proof. unfold soft_delete. destruct (existsb _ ids); reflexivity. Qed.

Lemma in_member_exists d m : In m (members d) -> member_exists d (Member.member_id m) = true.
Proof.
  intros Hin. unfold member_exists. apply existsb_exists.
  exists m. split; [exact Hin | apply String.eqb_refl].
Qed.

(** X15.  Removing an active member and then adding the same user to the
    same clique again, with the storage answering: the removal answers 204
    and leaves the user's row inactive; the add answers 201 and the database
    is then exactly what it was before the removal - the same Member row
    under the same member id, and every Ledger row with its balance. *)
Theorem remove_then_add_restores_the_member :
  forall env cliqueId userId m usr w,
    members_of_pair userId cliqueId (db w) = [m] ->
    Member.is_active m = true ->
    filter (fun x => Member.member_id x =? Member.member_id m) (members (db w)) = [m] ->
    find (fun u => User.user_id u =? userId) (users (db w)) = Some usr ->
    accepts env (tick w) 5 ->
    let r1 := removeMembers env (BodyArray [Member.member_id m]) w in
    let r2 := addMembers env cliqueId (BodyArray [userId]) (snd r1) in
    status (fst r1) = 204 /\
    members_of_pair userId cliqueId (db (snd r1)) = [Member.set_is_active false m] /\
    ledgers (db (snd r1)) = ledgers (db w) /\
    status (fst r2) = 201 /\
    db (snd r2) = db w.
Proof.
  intros env cliqueId userId m usr w Hpair Hact Hid Hu Hacc.
  assert (Hin : In m (members (db w))).
  { assert (H : In m (filter (fun x => Member.member_id x =? Member.member_id m)
                             (members (db w)))) by (rewrite Hid; left; reflexivity).
    apply filter_In in H. exact (proj1 H). }
  assert (Hrun : removeMembers_loop env [Member.member_id m] w =
    (Ok tt,
     mkWorld (set_members (map (soft_delete [Member.member_id m]) (members (db w))) (db w))
             (tick w + 1) (emitted w))).
  { apply removeMembers_loop_run.
    - intros id [<- | []]. apply in_member_exists. exact Hin.
    - intros k Hk. apply Hacc. simpl in Hk. lia. }
  assert (Hsd : soft_delete [Member.member_id m] m = Member.set_is_active false m).
  { unfold soft_delete. simpl. rewrite String.eqb_refl. reflexivity. }
  assert (Hr1 : removeMembers env (BodyArray [Member.member_id m]) w =
    (mkResponse 204 (JStatus "SUCCESS" "Members removed successfully"),
     mkWorld (set_members (map (soft_delete [Member.member_id m]) (members (db w))) (db w))
             (tick w + 1) (emitted w))).
  { unfold removeMembers, try_catch, bind. rewrite Hrun. reflexivity. }
  assert (Hpair1 :
    filter (fun x => (Member.user_id x =? userId) && (Member.clique_id x =? cliqueId))
           (map (soft_delete [Member.member_id m]) (members (db w)))
    = [Member.set_is_active false m]).
  { rewrite (filter_pair_map (soft_delete [Member.member_id m]) userId cliqueId _
               (soft_delete_user_id _) (soft_delete_clique_id _)).
    unfold members_of_pair in Hpair. rewrite Hpair. simpl. rewrite Hsd. reflexivity. }
  cbv zeta. rewrite Hr1. simpl.
  split; [reflexivity|]. split; [exact Hpair1|]. split; [reflexivity|].
  set (w1 := mkWorld
               (set_members (map (soft_delete [Member.member_id m]) (members (db w)))
                            (db w))
               (tick w + 1) (emitted w)).
  assert (Hstep : addMembers_step env cliqueId userId [] w1 =
    (Ok (inr (mkResponse 201 (JMembers "SUCCESS" "Members added successfully" []))),
     mkWorld (set_members
                (map (reactivate (Member.member_id (Member.set_is_active false m)))
                     (members (db w1))) (db w1))
             (4 + tick w1) (emitted w1))).
  { apply addMembers_step_reactivates with (usr := usr).
    - exact Hu.
    - apply filter_singleton_find. exact Hpair1.
    - reflexivity.
    - intros k Hk. simpl. replace (tick w + 1 + k) with (tick w + (1 + k)) by lia.
      apply Hacc. lia. }
  unfold addMembers, try_catch, bind. simpl. unfold bind. rewrite Hstep. simpl.
  split; [reflexivity|].
  rewrite map_map.
  replace (map _ (members (db w))) with (members (db w));
    [destruct w as [[] ? ?]; reflexivity|].
  rewrite <- (map_id (members (db w))) at 1. apply map_ext_in.
  intros x Hx. unfold reactivate, soft_delete. simpl.
  destruct (Member.member_id x =? Member.member_id m) eqn:He; simpl.
  - rewrite He.
    assert (Hxm : In x (filter (fun x => Member.member_id x =? Member.member_id m)
                               (members (db w)))).
    { apply filter_In. split; assumption. }
    rewrite Hid in Hxm. destruct Hxm as [<- | []].
    destruct m; simpl in *; subst; reflexivity.
  - rewrite He. reflexivity.
Qed.

Lemma remove_then_add_restores_the_member_witness :
  let r1 := removeMembers quiet (BodyArray ["m1"]) trip_world in
  let r2 := addMembers quiet "c1" (BodyArray ["u1"]) (snd r1) in
  status (fst r1) = 204 /\
  members_of_pair "u1" "c1" (db (snd r1))
  = [Member.set_is_active false (Member.mk "m1" "u1" "c1" true true 1003)] /\
  ledgers (db (snd r1)) = ledgers trip_db /\
  status (fst r2) = 201 /\
  db (snd r2) = trip_db.
Proof.
  apply (remove_then_add_restores_the_member quiet "c1" "u1"
           (Member.mk "m1" "u1" "c1" true true 1003)
           (User.mk "u1" "Alice" "alice@example.org") trip_world).
  - reflexivity.
  - reflexivity.
  - reflexivity.
  - reflexivity.
  - intros k Hk. reflexivity.
Defined.

(** ** Remove members: unknown ids, and what the listings show afterwards *)

Lemma removeMembers_loop_app env pre rest : forall w,
  removeMembers_loop env (pre ++ rest) w =
  match removeMembers_loop env pre w with
  | (Ok _, w1) => removeMembers_loop env rest w1
  | other => other
  end.
Proof.
  induction pre as [|id pre IH]; intros w; simpl; [reflexivity|].
  unfold bind.
  destruct (await env (member_update_is_active id false) w) as [[m|] w1]; simpl.
  - apply IH.
  - reflexivity.
Qed.

(** X16.  A member id that names no row stops a remove-members call: the
    update rejects and the handler answers 500.  The ids before it stay
    removed (no rollback), the ids after it are not processed, and no other
    table is written. *)
Theorem removeMembers_unknown_id_stops :
  forall env pre unknown post w,
    (forall id, In id pre -> member_exists (db w) id = true) ->
    member_exists (db w) unknown = false ->
    accepts env (tick w) (length pre) ->
    let r := removeMembers env (BodyArray (pre ++ unknown :: post)) w in
    fst r = mkResponse 500
              (JStatus "FAILURE" "An error occurred while removing members") /\
    db (snd r) = set_members (map (soft_delete pre) (members (db w))) (db w).
Proof.
  intros env pre unknown post w Hex Hun Hacc.
  assert (Hf : find (fun m => Member.member_id m =? unknown)
                    (map (soft_delete pre) (members (db w))) = None).
  { apply find_none_existsb. rewrite existsb_member_id_map; [exact Hun|].
    apply soft_delete_member_id. }
  assert (Hloop : exists t,
    removeMembers_loop env (pre ++ unknown :: post) w =
      (Thrown,
       mkWorld (set_members (map (soft_delete pre) (members (db w))) (db w))
               t (emitted w))).
  { rewrite removeMembers_loop_app, (removeMembers_loop_run env pre w Hex Hacc).
    simpl. unfold bind, await, member_update_is_active. simpl. rewrite Hf.
    destruct (rejects env (tick w + length pre)); eexists; reflexivity. }
  destruct Hloop as [t Hloop].
  cbv zeta. unfold removeMembers, try_catch, bind. rewrite Hloop.
  split; reflexivity.
Qed.

Lemma removeMembers_unknown_id_stops_witness :
  let r := removeMembers quiet (BodyArray (["m1"] ++ "nobody" :: ["m2"])) trip_world in
  fst r = mkResponse 500
            (JStatus "FAILURE" "An error occurred while removing members") /\
  db (snd r) = set_members (map (soft_delete ["m1"]) (members trip_db)) trip_db.
Proof.
  apply (removeMembers_unknown_id_stops quiet ["m1"] "nobody" ["m2"] trip_world).
  - intros id [<- | []]. reflexivity.
  - reflexivity.
  - intros k Hk. reflexivity.
Defined.

(** X17.  After a remove-members call that went through (every id names a
    row, the storage answers), no listing shows a removed member: neither
    the list of any user's cliques nor get-by-id of any clique contains a
    member whose id was in the list. *)
Theorem removed_members_are_not_listed :
  forall env ids w,
    (forall id, In id ids -> member_exists (db w) id = true) ->
    accepts env (tick w) (length ids) ->
    let w' := snd (removeMembers env (BodyArray ids) w) in
    forall r,
      (exists userId, r = fst (getCliques env userId w')) \/
      (exists cliqueId, r = fst (getClique env cliqueId w')) ->
      forall cliqueId mv,
        In (cliqueId, mv) (response_members r) ->
        ~ In (MemberView.member_id mv) ids.
Proof.
  intros env ids w Hex Hacc w' r Hr cliqueId mv Hin Hid.
  assert (Hm : members (db w') = map (soft_delete ids) (members (db w))).
  { unfold w', removeMembers, try_catch, bind.
    rewrite (removeMembers_loop_run env ids w Hex Hacc). reflexivity. }
  assert (Hshown : exists m,
            In m (members (db w')) /\
            Member.member_id m = MemberView.member_id mv /\
            Member.is_active m = true).
  { destruct Hr as [[userId ->] | [cliqueId0 ->]].
    - destruct (getCliques_members_active _ _ _ _ _ Hin) as (m & H1 & H2 & _ & _ & _ & H6).
      exists m. auto.
    - destruct (getClique_members_active _ _ _ _ _ Hin) as (m & H1 & H2 & _ & _ & _ & H6).
      exists m. auto. }
  destruct Hshown as (m & Hmin & Hmid & Hact).
  rewrite Hm in Hmin. apply in_map_iff in Hmin. destruct Hmin as [m0 [<- _]].
  rewrite soft_delete_member_id in Hmid.
  unfold soft_delete in Hact.
  destruct (existsb (fun id => Member.member_id m0 =? id) ids) eqn:He.
  - simpl in Hact. discriminate.
  - assert (existsb (fun id => Member.member_id m0 =? id) ids = true).
    { apply existsb_exists. exists (MemberView.member_id mv).
      split; [exact Hid | apply String.eqb_eq; exact Hmid]. }
    congruence.
Qed.

Lemma removed_members_are_not_listed_witness :
  ~ In (MemberView.member_id (MemberView.mk "u3" "m9" "Carol" "carol@example.org" false))
       ["m1"].
Proof.
  apply (removed_members_are_not_listed quiet ["m1"]
           (snd (addMembers quiet "c1" (BodyArray ["u3"]) trip_world))
           ltac:(intros id [<- | []]; reflexivity)
           ltac:(intros k Hk; reflexivity)
           (fst (getClique quiet "c1"
                   (snd (removeMembers quiet (BodyArray ["m1"])
                           (snd (addMembers quiet "c1" (BodyArray ["u3"]) trip_world))))))
           (or_intror (ex_intro _ "c1" eq_refl))
           "c1" (MemberView.mk "u3" "m9" "Carol" "carol@example.org" false)).
  simpl. left. reflexivity.
Defined.

(** X18.  A remove-members call, whatever its body and whatever the storage
    does, writes nothing but [is_active = false] on Member rows whose id is
    in its list: every other field of every Member row, every row of every
    other table and the log of emitted events are as they were. *)
Theorem removeMembers_only_deactivates :
  forall env body w,
    let w' := snd (removeMembers env body w) in
    users (db w') = users (db w) /\
    cliques (db w') = cliques (db w) /\
    ledgers (db w') = ledgers (db w) /\
    transactions (db w') = transactions (db w) /\
    media (db w') = media (db w) /\
    emitted w' = emitted w /\
    Forall2 (fun m m' =>
               m' = m \/
               (m' = Member.set_is_active false m /\
                exists ids, body = BodyArray ids /\ In (Member.member_id m) ids))
            (members (db w)) (members (db w')).
Proof.
  intros env body w. cbv zeta.
  assert (Hsame : forall l : list Member.t,
            Forall2 (fun m m' =>
               m' = m \/
               (m' = Member.set_is_active false m /\
                exists ids, body = BodyArray ids /\ In (Member.member_id m) ids)) l l).
  { induction l; constructor; auto. }
  unfold removeMembers, try_catch.
  destruct body as [ids|]; [| simpl; repeat split; apply Hsame].
  unfold bind.
  assert (Hloop : forall done todo w0,
    ids = done ++ todo ->
    let w1 := snd (removeMembers_loop env todo w0) in
    users (db w1) = users (db w0) /\ cliques (db w1) = cliques (db w0) /\
    ledgers (db w1) = ledgers (db w0) /\ transactions (db w1) = transactions (db w0) /\
    media (db w1) = media (db w0) /\ emitted w1 = emitted w0 /\
    Forall2 (fun m m' =>
               m' = m \/
               (m' = Member.set_is_active false m /\
                exists ids0, BodyArray ids = BodyArray ids0 /\
                             In (Member.member_id m) ids0))
            (members (db w0)) (members (db w1))).
  { intros done todo. revert done.
    induction todo as [|id todo IH]; intros done w0 Hids; simpl.
    - repeat split. apply Hsame.
    - unfold bind, await, member_update_is_active.
      destruct (rejects env (tick w0)); simpl; [repeat split; apply Hsame|].
      destruct (find _ (members (db w0))); simpl; [| repeat split; apply Hsame].
      match goal with |- context [removeMembers_loop env todo ?w2] =>
        specialize (IH (done ++ [id]) w2) end.
      rewrite <- app_assoc in IH. specialize (IH Hids). simpl in IH.
      destruct IH as (H1 & H2 & H3 & H4 & H5 & H6 & H7).
      repeat split; try assumption.
      clear - H7 Hids.
      match type of H7 with Forall2 _ _ ?l' => generalize dependent l' end.
      induction (members (db w0)) as [|x l IHl]; intros l' H7; simpl in H7.
      + inversion H7. constructor.
      + inversion H7 as [|? y ? l'' Hxy Hrest]; subst. constructor; [| apply IHl; exact Hrest].
        destruct (Member.member_id x =? id) eqn:He.
        * right. apply String.eqb_eq in He.
          assert (Hy : y = Member.set_is_active false x).
          { destruct Hxy as [-> | [-> _]]; destruct x; reflexivity. }
          split; [exact Hy|]. exists (done ++ id :: todo). split; [reflexivity|].
          rewrite He. apply in_elt.
        * exact Hxy. }
  specialize (Hloop [] ids w eq_refl). simpl in Hloop.
  destruct (removeMembers_loop env ids w) as [[u|] w1]; simpl in *; exact Hloop.
Qed.

Example removeMembers_reaches_other_cliques :
  let d := set_members (members trip_db ++ [Member.mk "m7" "u3" "c9" false true 1500])
                       trip_db in
  let r := removeMembers quiet (BodyArray ["m7"]) (mkWorld d 0 []) in
  status (fst r) = 204 /\
  map (fun m => (Member.member_id m, Member.clique_id m, Member.is_active m))
      (members (db (snd r)))
  = [("m1", "c1", true); ("m2", "c1", false); ("m7", "c9", false)].
Proof. split; reflexivity. Qed.

(** ** One Member row per user and clique *)

Lemma one_row_members_same d d' :
  members d' = members d -> one_row_per_pair d -> one_row_per_pair d'.
Proof.
  intros Hm H u g. unfold members_of_pair. rewrite Hm. apply H.
Qed.

Lemma one_row_map (f : Member.t -> Member.t) d :
  (forall m, Member.user_id (f m) = Member.user_id m) ->
  (forall m, Member.clique_id (f m) = Member.clique_id m) ->
  one_row_per_pair d ->
  one_row_per_pair (set_members (map f (members d)) d).
Proof.
  intros Hu Hc H u g. unfold members_of_pair. simpl.
  rewrite (filter_pair_map f u g _ Hu Hc), length_map. apply H.
Qed.

Lemma one_row_add d row :
  one_row_per_pair d ->
  find (fun m => (Member.user_id m =? Member.user_id row)
                 && (Member.clique_id m =? Member.clique_id row)) (members d) = None ->
  one_row_per_pair (set_members (members d ++ [row]) d).
Proof.
  intros H Hnone u g. unfold members_of_pair. simpl.
  rewrite filter_app, length_app. simpl.
  destruct ((Member.user_id row =? u) && (Member.clique_id row =? g)) eqn:He; simpl.
  - apply andb_true_iff in He. destruct He as [Hu Hg].
    apply String.eqb_eq in Hu. apply String.eqb_eq in Hg. subst u g.
    rewrite (find_none_filter _ _ Hnone). simpl. lia.
  - specialize (H u g). unfold members_of_pair in H. lia.
Qed.

Lemma addMembers_step_keeps_one_row env cliqueId userId acc w :
  one_row_per_pair (db w) ->
  one_row_per_pair (db (snd (addMembers_step env cliqueId userId acc w))).
Proof.
  intros HP.
  unfold addMembers_step, user_findUnique, member_findFirst, member_create,
    ledger_create, member_update_is_active.
  unfold_handler.
  destruct (rejects env (tick w)); simpl; [exact HP|].
  destruct (find _ (users (db w))) as [usr|]; simpl; [| exact HP].
  destruct (rejects env (S (tick w))); simpl; [exact HP|].
  destruct (rejects env (S (S (tick w)))); simpl; [exact HP|].
  destruct (find _ (members (db w))) as [cm|] eqn:Hcm; simpl.
  - destruct (Member.is_active cm); simpl; [exact HP|].
    destruct (rejects env (S (S (S (tick w))))); simpl; [exact HP|].
    match goal with |- context [match find ?f ?l with _ => _ end] =>
      destruct (find f l) end; simpl; [| exact HP].
    apply one_row_map; [| | exact HP];
      intros m; destruct (Member.member_id m =? Member.member_id cm); reflexivity.
  - destruct (rejects env (S (S (S (tick w))))); simpl; [exact HP|].
    destruct (existsb _ (members (db w))) eqn:Hex; simpl; [exact HP|].
    assert (HP2 : one_row_per_pair
              (set_members
                 (members (db w) ++
                  [Member.mk (fresh_id env (S (tick w))) userId cliqueId false
                             default_is_active (now env (S (S (S (tick w)))))])
                 (db w))).
    { apply one_row_add; [exact HP | exact Hcm]. }
    destruct (rejects env (S (S (S (S (tick w)))))); simpl; [exact HP2|].
    eapply one_row_members_same; [| exact HP2]. reflexivity.
Qed.

Lemma addMembers_loop_keeps_one_row env cliqueId userIds : forall acc w,
  one_row_per_pair (db w) ->
  one_row_per_pair (db (snd (addMembers_loop env cliqueId userIds acc w))).
Proof.
  induction userIds as [|u rest IH]; intros acc w HP; simpl; [exact HP|].
  unfold bind.
  pose proof (addMembers_step_keeps_one_row env cliqueId u acc w HP) as Hs.
  destruct (addMembers_step env cliqueId u acc w) as [[[acc1 | resp]|] w1];
    simpl in *; [apply IH; assumption | exact Hs | exact Hs].
Qed.

Lemma createClique_keeps_one_row env caller name funds w :
  one_row_per_pair (db w) ->
  (forall m, In m (members (db w)) -> Member.clique_id m <> fresh_id env (tick w)) ->
  one_row_per_pair (db (snd (createClique env caller name funds w))).
Proof.
  intros HP Hnew.
  assert (Hnone : find (fun m => (Member.user_id m =? caller_user_id caller)
                                 && (Member.clique_id m =? fresh_id env (tick w)))
                       (members (db w)) = None).
  { destruct (find _ (members (db w))) as [m|] eqn:Hf; [| reflexivity].
    apply find_some in Hf. destruct Hf as [Hin Hb].
    apply andb_true_iff in Hb. destruct Hb as [_ Hc]. apply String.eqb_eq in Hc.
    exfalso. exact (Hnew m Hin Hc). }
  pose proof (createClique_outcomes env caller name funds w) as H. cbv zeta in H.
  assert (H1 : one_row_per_pair
                 (set_cliques (cliques (db w) ++ [founding_clique env (tick w) name funds])
                              (db w)))
    by (eapply one_row_members_same; [| exact HP]; reflexivity).
  assert (H2 : one_row_per_pair
                 (set_members (members (db w) ++ [founding_member env (tick w) caller])
                    (set_cliques
                       (cliques (db w) ++ [founding_clique env (tick w) name funds])
                       (db w)))).
  { apply (one_row_add _ (founding_member env (tick w) caller) H1). exact Hnone. }
  destruct H as [[_ ->] | [[_ ->] | [[_ ->] | [_ ->]]]];
    [exact HP | exact H1 | exact H2 |].
  exact (one_row_members_same _ _ eq_refl H2).
Qed.

(** X19.  "At most one Member row per (user, clique)" is kept by every
    request, whatever the storage does - for a create call provided the
    generated clique id is not one that Member rows already refer to (rows
    of a deleted clique stay behind, so a reused clique id would give its
    founder a second row next to an old one). *)
Theorem requests_keep_one_row_per_pair :
  forall env req w,
    one_row_per_pair (db w) ->
    (forall caller name funds, req = CreateClique caller name funds ->
       forall m, In m (members (db w)) -> Member.clique_id m <> fresh_id env (tick w)) ->
    one_row_per_pair (db (snd (handle env req w))).
Proof.
  intros env req w HP Hcreate.
  set (R := fun w w' : World => one_row_per_pair (db w) -> one_row_per_pair (db w')).
  assert (Hsame : forall (w0 : World) d, members d = members (db w0) -> R w0 (wrote w0 d)).
  { intros w0 d Hm H. simpl. eapply one_row_members_same; eassumption. }
  assert (Hrefl : forall w0 : World, R w0 w0) by (unfold R; auto).
  assert (Htrans : forall a b c : World, R a b -> R b c -> R a c) by (unfold R; auto).
  assert (Htick : forall w0 : World, R w0 (wrote w0 (db w0))) by (unfold R; auto).
  assert (Hupd : forall (w0 : World) memberId b,
            R w0 (wrote w0 (set_members
                    (map (fun m => if Member.member_id m =? memberId
                                   then Member.set_is_active b m else m)
                         (members (db w0))) (db w0)))).
  { intros w0 memberId b H. simpl. apply one_row_map; [| | exact H];
      intros m; destruct (Member.member_id m =? memberId); reflexivity. }
  destruct req as [uid | caller name funds | cid | cid name | cid
                   | cid ids | ids | cid | cid file sender]; simpl.
  - apply (getCliques_steps R); auto.
  - apply createClique_keeps_one_row; [exact HP | eapply Hcreate; reflexivity].
  - apply (getClique_steps R); auto.
  - apply (renameClique_steps R); auto; intros; apply Hsame; reflexivity.
  - apply (deleteClique_steps R); auto; intros; apply Hsame; reflexivity.
  - unfold addMembers, try_catch, bind. destruct ids as [userIds|]; [| exact HP].
    pose proof (addMembers_loop_keeps_one_row env cid userIds [] w HP) as Hl.
    destruct (addMembers_loop env cid userIds [] w) as [[[acc | resp]|] w1];
      simpl in *; [| exact Hl | exact Hl].
    destruct (length acc =? 0)%nat; exact Hl.
  - apply (removeMembers_steps R); auto.
  - apply (getMedia_steps R); auto.
  - apply (uploadMedia_steps R); auto; intros; apply Hsame; reflexivity.
Qed.

Lemma requests_keep_one_row_per_pair_witness :
  one_row_per_pair
    (db (snd (handle quiet (AddMembers "c1" (BodyArray ["u3"; "u3"; "u2"])) trip_world))).
Proof.
  apply (requests_keep_one_row_per_pair quiet
           (AddMembers "c1" (BodyArray ["u3"; "u3"; "u2"])) trip_world).
  - intros u g. unfold members_of_pair. cbn -[String.eqb].
    destruct ("u1" =? u) eqn:H1; destruct ("u2" =? u) eqn:H2;
      destruct ("c1" =? g); cbn -[String.eqb]; try lia.
    apply String.eqb_eq in H1. apply String.eqb_eq in H2. subst u. discriminate.
  - intros caller name funds H. discriminate H.
Defined.

(** The proviso on create is needed: a clique id handed out a second time,
    after the first clique was deleted, gives the founder two rows. *)
Example reused_clique_id_duplicates_the_founder :
  let w1 := snd (createClique quiet alice "Trip" 0%float empty_world) in
  let w2 := snd (deleteClique quiet "c1" w1) in
  let again := mkEnv (fun _ => false) (fun k => match k with 7 => "c1" | _ => "m5" end)
                     (now quiet) in
  let w3 := snd (createClique again alice "Trip" 0%float w2) in
  map Member.member_id (members_of_pair "u1" "c1" (db w3)) = ["m1"; "m5"].
Proof. reflexivity. Qed.

(** X20.  An add-members call for a clique - whatever ids it carries, in
    whatever order, and whatever the storage does - leaves a user whose only
    Member row in that clique is active with exactly that row, and leaves
    that member's Ledger rows as they were. *)
Theorem addMembers_leaves_active_memberships :
  forall env cliqueId userId m body w,
    members_of_pair userId cliqueId (db w) = [m] ->
    Member.is_active m = true ->
    let d' := db (snd (addMembers env cliqueId body w)) in
    members_of_pair userId cliqueId d' = [m] /\
    ledgers_of_member (Member.member_id m) d'
    = ledgers_of_member (Member.member_id m) (db w).
Proof.
  intros env cliqueId userId m body w Hm Hact.
  apply (addMembers_keeps_pair env cliqueId userId m
           (ledgers_of_member (Member.member_id m) (db w)) body w);
    [split; [exact Hm | reflexivity] | exact Hact].
Qed.

Lemma addMembers_leaves_active_memberships_witness :
  let d' := db (snd (addMembers fifth_call_fails "c1"
                       (BodyArray ["u3"; "u2"; "u1"]) trip_world)) in
  members_of_pair "u1" "c1" d' = [Member.mk "m1" "u1" "c1" true true 1003] /\
  ledgers_of_member "m1" d' = ledgers_of_member "m1" trip_db.
Proof.
  apply (addMembers_leaves_active_memberships fifth_call_fails "c1" "u1"
           (Member.mk "m1" "u1" "c1" true true 1003)
           (BodyArray ["u3"; "u2"; "u1"]) trip_world);
    reflexivity.
Defined.

(** ** When a create call succeeds *)

(** X21.  A create call answers 201 exactly when none of its five awaited
    calls is rejected, the generated clique id is not the id of a Clique row
    and the generated member id is not the id of a Member row; the 201
    answer then carries the new clique id and name, the founder as its
    admin member, and the fund with its flag. *)
Theorem createClique_succeeds_exactly_when :
  forall env caller name funds w,
    let r := createClique env caller name funds w in
    (status (fst r) = 201 <->
     accepts env (tick w) 5 /\
     clique_exists (db w) (fresh_id env (tick w)) = false /\
     member_exists (db w) (fresh_id env (2 + tick w)) = false) /\
    (status (fst r) = 201 ->
     fst r = mkResponse 201
               (JCreated
                  (CreatedClique.mk
                     (fresh_id env (tick w)) name
                     (MemberView.mk (caller_user_id caller) (fresh_id env (2 + tick w))
                                    (caller_user_name caller) (caller_user_email caller)
                                    true)
                     (fund_flag funds) funds default_is_active))).
Proof.
  intros env caller name funds w. cbv zeta. split; [split|].
  - unfold createClique, clique_create, member_create, ledger_create,
      clique_exists, member_exists.
    unfold_handler.
    destruct (rejects env (tick w)) eqn:H0; simpl; [discriminate|].
    destruct (rejects env (S (tick w))) eqn:H1; simpl; [discriminate|].
    destruct (existsb _ (cliques (db w))) eqn:Hc; simpl; [discriminate|].
    destruct (rejects env (S (S (tick w)))) eqn:H2; simpl; [discriminate|].
    destruct (rejects env (S (S (S (tick w))))) eqn:H3; simpl; [discriminate|].
    destruct (existsb _ (members (db w))) eqn:Hm; simpl; [discriminate|].
    destruct (rejects env (S (S (S (S (tick w)))))) eqn:H4; simpl; [discriminate|].
    intros _. split; [| split; reflexivity].
    intros k Hk.
    destruct k as [|[|[|[|[|k]]]]]; try lia.
    + rewrite Nat.add_0_r. exact H0.
    + replace (tick w + 1) with (S (tick w)) by lia. exact H1.
    + replace (tick w + 2) with (S (S (tick w))) by lia. exact H2.
    + replace (tick w + 3) with (S (S (S (tick w)))) by lia. exact H3.
    + replace (tick w + 4) with (S (S (S (S (tick w))))) by lia. exact H4.
  - intros (Hacc & Hc & Hm).
    exact (proj1 (createClique_succeeds env caller name funds w Hacc Hc Hm)).
  - unfold createClique, clique_create, member_create, ledger_create.
    unfold_handler. split_calls; intros H; try discriminate H; reflexivity.
Qed.

(** Each of the two collisions, on the example world. *)
Example createClique_taken_ids :
  let taken_clique := mkEnv (fun _ => false) (fun _ => "c1") (now quiet) in
  let taken_member :=
    mkEnv (fun _ => false) (fun k => match k with 0 => "c2" | _ => "m1" end) (now quiet) in
  let r1 := createClique taken_clique alice "Ski" 0%float trip_world in
  let r2 := createClique taken_member alice "Ski" 0%float trip_world in
  status (fst r1) = 500 /\ db (snd r1) = trip_db /\
  status (fst r2) = 500 /\
  map Clique.clique_id (cliques (db (snd r2))) = ["c1"; "c2"] /\
  members (db (snd r2)) = members trip_db.
Proof. repeat split. Qed.

(** ** Add members: a returning member ends the call *)

Lemma find_app_some {A} (f : A -> bool) (l l' : list A) (a : A) :
  find f l = Some a -> find f (l ++ l') = Some a.
Proof.
  induction l as [|x l IH]; simpl; [discriminate|].
  destruct (f x); [auto | exact IH].
Qed.

(** X22.  The ids before [userId] were added, and the Member row the lookup
    finds for [userId] in the clique is inactive.  With the storage
    answering, the handler switches that row back on, answers 201 at once
    with the members gathered from the ids before - the returning member is
    not among them - and does nothing for the ids after it.  No Ledger row
    is written for the returning member. *)
Theorem addMembers_reactivation_stops_the_call :
  forall env cliqueId userId m usr pre post acc w w1,
    find (fun x => (Member.user_id x =? userId) && (Member.clique_id x =? cliqueId))
         (members (db w)) = Some m ->
    Member.is_active m = false ->
    find (fun u => User.user_id u =? userId) (users (db w)) = Some usr ->
    addMembers_loop env cliqueId pre [] w = (Ok (inl acc), w1) ->
    accepts env (tick w1) 4 ->
    let r := addMembers env cliqueId (BodyArray (pre ++ userId :: post)) w in
    fst r = mkResponse 201 (JMembers "SUCCESS" "Members added successfully" acc) /\
    length acc = length pre /\
    ~ In (Member.member_id m) (map NewMember.member_id acc) /\
    members (db (snd r)) = map (reactivate (Member.member_id m)) (members (db w1)) /\
    ledgers (db (snd r)) = ledgers (db w1) /\
    users (db (snd r)) = users (db w1) /\
    cliques (db (snd r)) = cliques (db w1) /\
    transactions (db (snd r)) = transactions (db w1) /\
    media (db (snd r)) = media (db w1).
Proof.
  intros env cliqueId userId m usr pre post acc w w1 Hm Hact Hu Hpre Hacc.
  destruct (addMembers_loop_continues _ _ _ _ _ _ _ Hpre)
    as (news & Hmem & _ & _ & _ & Hus & Hlen).
  assert (Hstep : addMembers_step env cliqueId userId acc w1 =
    (Ok (inr (mkResponse 201 (JMembers "SUCCESS" "Members added successfully" acc))),
     mkWorld (set_members (map (reactivate (Member.member_id m)) (members (db w1)))
                          (db w1))
             (4 + tick w1) (emitted w1))).
  { apply addMembers_step_reactivates with (usr := usr).
    - rewrite Hus. exact Hu.
    - rewrite Hmem. apply find_app_some. exact Hm.
    - exact Hact.
    - exact Hacc. }
  assert (Hfresh : forall pre0 acc0 w0 acc1 w2,
            addMembers_loop env cliqueId pre0 acc0 w0 = (Ok (inl acc1), w2) ->
            forall id, member_exists (db w0) id = true ->
                       ~ In id (map NewMember.member_id acc0) ->
                       ~ In id (map NewMember.member_id acc1)).
  { clear. induction pre0 as [|u pre0 IH]; intros acc0 w0 acc1 w2; simpl.
    - unfold ret. intros H; inversion H; subst. auto.
    - unfold bind.
      destruct (addMembers_step env cliqueId u acc0 w0) as [[[acc2 | resp]|] w3] eqn:Hs;
        simpl; try discriminate.
      intros Hl id Hex Hnot.
      apply addMembers_step_continues in Hs.
      destruct Hs as (usr & _ & _ & Hnew & Hdb & Hacc2 & _ & _).
      apply (IH _ _ _ _ Hl).
      + unfold member_exists in *. rewrite Hdb. simpl. rewrite existsb_app, Hex.
        reflexivity.
      + rewrite Hacc2, map_app, in_app_iff. simpl. intros [H | [H | []]];
          [exact (Hnot H)|].
        subst id. unfold member_exists in Hex, Hnew. simpl in Hex, Hnew.
        congruence. }
  cbv zeta. unfold addMembers, try_catch, bind.
  rewrite addMembers_loop_app, Hpre. simpl. unfold bind. rewrite Hstep. simpl.
  split; [reflexivity|]. split; [exact Hlen|]. split; [| repeat split].
  apply (Hfresh _ _ _ _ _ Hpre).
  - apply in_member_exists. apply find_some in Hm. exact (proj1 Hm).
  - intros [].
Qed.

Lemma addMembers_reactivation_stops_the_call_witness :
  let m := Member.mk "m2" "u2" "c1" false false 1010 in
  let w1 := snd (addMembers_loop quiet "c1" ["u3"] [] trip_world) in
  let acc := [reported_member (added_member quiet 0 "c1" "u3")
                              (User.mk "u3" "Carol" "carol@example.org")] in
  let r := addMembers quiet "c1" (BodyArray (["u3"] ++ "u2" :: ["ghost"])) trip_world in
  fst r = mkResponse 201 (JMembers "SUCCESS" "Members added successfully" acc) /\
  length acc = length ["u3"] /\
  ~ In (Member.member_id m) (map NewMember.member_id acc) /\
  members (db (snd r)) = map (reactivate (Member.member_id m)) (members (db w1)) /\
  ledgers (db (snd r)) = ledgers (db w1) /\
  users (db (snd r)) = users (db w1) /\
  cliques (db (snd r)) = cliques (db w1) /\
  transactions (db (snd r)) = transactions (db w1) /\
  media (db (snd r)) = media (db w1).
Proof.
  apply (addMembers_reactivation_stops_the_call quiet "c1" "u2"
           (Member.mk "m2" "u2" "c1" false false 1010)
           (User.mk "u2" "Bob" "bob@example.org")
           ["u3"] ["ghost"]
           [reported_member (added_member quiet 0 "c1" "u3")
                            (User.mk "u3" "Carol" "carol@example.org")]
           trip_world
           (snd (addMembers_loop quiet "c1" ["u3"] [] trip_world))).
  - reflexivity.
  - reflexivity.
  - reflexivity.
  - reflexivity.
  - intros k Hk. reflexivity.
Defined.
